(** * Identity-verification backend (app.py): shallow embedding and proofs

    The service keeps one SQLite table [users] and exposes four handlers:
    [register_user], [verify_password], [verify_face] and [check_user].
    The table is modelled as the list of its rows, a handler as a function
    from the request and the table to a response and the table afterwards.
    The libraries the handlers call (base64, OpenCV, face_recognition,
    bcrypt, json) are collaborators of the program: they are the fields of
    [Libraries], and the part of their contract a proof relies on is a
    hypothesis of that proof.  Numbers are IEEE-754 binary64 values, as
    numpy's float64 and Python's float are. *)

From Stdlib Require Import String Ascii List Bool Arith ZArith Lia Floats.
Import ListNotations.

Local Open Scope string_scope.
Local Open Scope list_scope.

(** ** numpy's float64 arrays *)

Module Numpy.

(** A one-dimensional float64 array. *)
Definition ndarray := list float.

Definition fsub (x y : float) : float := PrimFloat.sub x y.
Definition fsquare (x : float) : float := PrimFloat.mul x x.

Fixpoint map2 (f : float -> float -> float) (a b : ndarray) : ndarray :=
  match a, b with
  | x :: a', y :: b' => f x y :: map2 f a' b'
  | _, _ => []
  end.

(** [a - b] for a row [a] of a two-dimensional array and a one-dimensional
    array [b]: elementwise when the lengths agree, a length-one operand is
    stretched, any other pair of lengths raises ValueError ([None]). *)
Definition broadcast_sub (a b : ndarray) : option ndarray :=
  if Nat.eqb (length a) (length b) then Some (map2 fsub a b)
  else if Nat.eqb (length b) 1 then Some (map (fun x => fsub x (hd PrimFloat.zero b)) a)
  else if Nat.eqb (length a) 1 then Some (map (fun y => fsub (hd PrimFloat.zero a) y) b)
  else None.

(** [np.add.reduce]: the sum of the entries, [0.0] for no entry.  The
    entries are added from left to right; numpy adds a long row in blocks,
    which changes the rounding of the sum and nothing else. *)
Definition add_reduce (s : ndarray) : float :=
  fold_left PrimFloat.add s PrimFloat.zero.

(** [np.linalg.norm(x)] along the row: [sqrt(add.reduce(x * x))]. *)
Definition norm (x : ndarray) : float :=
  PrimFloat.sqrt (add_reduce (map fsquare x)).

(** Every component is a number: neither NaN nor an infinity. *)
Definition all_finite (v : ndarray) : bool := forallb PrimFloat.is_finite v.

End Numpy.

Import Numpy.

(** ** The biometric verifier (face_recognition's comparison functions) *)

(** Modelled from the spec: [face_recognition.face_distance], which app.py
    calls and which is not part of the repository.  "Distance computed as
    Euclidean distance between the two feature vectors": for every known
    encoding, the norm of its difference with the candidate. *)
Fixpoint face_distance (face_encodings : list ndarray) (face_to_compare : ndarray)
  : option (list float) :=
  match face_encodings with
  | [] => Some []
  | known :: rest =>
      match broadcast_sub known face_to_compare, face_distance rest face_to_compare with
      | Some d, Some ds => Some (norm d :: ds)
      | _, _ => None
      end
  end.

(** Modelled from the spec: [face_recognition.compare_faces], which is not
    part of the repository.  "is_match = distance <= tolerance". *)
Definition compare_faces (known_face_encodings : list ndarray)
    (face_encoding_to_check : ndarray) (tolerance : float) : option (list bool) :=
  option_map (map (fun d => PrimFloat.leb d tolerance))
             (face_distance known_face_encodings face_encoding_to_check).

(** The spec's words, for two vectors of one length: the square root of the
    sum of the squared componentwise differences. *)
Definition euclidean_distance (a b : ndarray) : float :=
  PrimFloat.sqrt
    (fold_left PrimFloat.add (map fsquare (map2 fsub a b)) PrimFloat.zero).

(** The [tolerance=0.5] of the call in [verify_face]. *)
Definition tolerance : float := 0.5%float.

(** ** Python strings and byte strings *)

(** [bytes]: a Python byte string. *)
Definition bytes := list Byte.byte.

(** [str.encode()] and [bytes.decode()].  A [string] holds the bytes of the
    text, so both are conversions between the two representations. *)
Definition encode (s : string) : bytes := list_byte_of_string s.
Definition decode (b : bytes) : string := string_of_list_byte b.

(** [s.split(sep)] for a one-character separator: the pieces between the
    separators, in order; at least one piece. *)
Fixpoint split (sep : ascii) (s : string) : list string :=
  match s with
  | EmptyString => [EmptyString]
  | String c s' =>
      if Ascii.eqb c sep then EmptyString :: split sep s'
      else match split sep s' with
           | [] => [String c EmptyString]
           | piece :: pieces => String c piece :: pieces
           end
  end.

(** [l[-1]]; [None] is IndexError. *)
Fixpoint last_item {A : Type} (l : list A) : option A :=
  match l with
  | [] => None
  | [x] => Some x
  | _ :: l' => last_item l'
  end.

Definition comma : ascii := ","%char.

(** [c] does not occur in [s]. *)
Fixpoint free_of (c : ascii) (s : string) : bool :=
  match s with
  | EmptyString => true
  | String c' s' => negb (Ascii.eqb c' c) && free_of c s'
  end.

(** [payload] is what follows the last comma of [s], and the whole of [s]
    when [s] has no comma. *)
Definition after_last_comma (s payload : string) : Prop :=
  free_of comma payload = true /\
  (s = payload \/ exists before, s = (before ++ String comma payload)%string).

(** ** Calls that may raise *)

(** The result of a call that may raise: [None] is any exception. *)
Definition raising (A : Type) : Type := option A.

Definition bind {A B : Type} (c : raising A) (k : A -> raising B) : raising B :=
  match c with
  | Some a => k a
  | None => None
  end.

Notation "x <- c ;; k" := (bind c (fun x => k))
  (at level 61, c at next level, right associativity).

(** [try: body except Exception: return handler]. *)
Definition try_except {A : Type} (body : raising A) (handler : A) : A :=
  match body with
  | Some a => a
  | None => handler
  end.

(** ** The libraries app.py calls *)

Record Libraries : Type := {
  (** a decoded image (a pixel grid) *)
  image : Type;
  (** [base64.b64decode]; raises binascii.Error *)
  b64decode : string -> raising bytes;
  (** [cv2.imdecode(np.frombuffer(data, np.uint8), cv2.IMREAD_COLOR)]: the
      image, or Python's None when the bytes are no image; may raise *)
  imdecode : bytes -> raising (option image);
  (** [cv2.cvtColor(img, cv2.COLOR_BGR2RGB)] *)
  cvtColor : image -> raising image;
  (** [face_recognition.face_encodings]: one encoding per detected face, in
      detection order *)
  face_encodings : image -> raising (list ndarray);
  (** [bcrypt.hashpw(password, salt)] *)
  hashpw : bytes -> bytes -> bytes;
  (** [bcrypt.checkpw(password, hashed_password)] *)
  checkpw : bytes -> bytes -> bool;
  (** [json.dumps(encoding.tolist())] *)
  json_dumps : ndarray -> string;
  (** [np.array(json.loads(text))]; raises on text that is no list of numbers *)
  json_loads : string -> raising ndarray
}.

(** ** The users table *)

(** One row of [users]; [face_encoding] is the one column that may be NULL. *)
Record user_row : Type := {
  id : Z;
  user_id : string;
  password_hash : string;
  face_encoding : option string
}.

(** The rows of [users], in insertion order. *)
Definition users := list user_row.

(** [init_db] on a fresh database file: the empty table. *)
Definition init_db : users := [].

(** [SELECT ... FROM users WHERE user_id = ?]. *)
Definition select_where_user_id (uid : string) (db : users) : list user_row :=
  filter (fun r => String.eqb r.(user_id) uid) db.

(** [cur.fetchone()]: the first row of the result, or None. *)
Definition fetchone {A : Type} (rows : list A) : option A := hd_error rows.

(** The key of the next row: one more than the largest key in use. *)
Definition next_id (db : users) : Z :=
  Z.succ (fold_right Z.max 0%Z (map id db)).

(** [INSERT INTO users (user_id, password_hash, face_encoding) VALUES (?, ?, ?)]
    followed by [commit]; [None] is sqlite3.IntegrityError, raised when the
    UNIQUE constraint on [user_id] fails. *)
Definition insert_user (uid ph : string) (fe : option string) (db : users)
  : raising users :=
  if existsb (fun r => String.eqb r.(user_id) uid) db then None
  else Some (db ++ [{| id := next_id db; user_id := uid;
                      password_hash := ph; face_encoding := fe |}]).

(** The user ids of the table, one per row. *)
Definition user_ids (db : users) : list string := map user_id db.

(** ** Requests and responses *)

(** The request models; the source's [userId], [password] and [faceImage]
    carry the model's initials, a field name being global here. *)
Record RegisterUserRequest : Type := {
  reg_userId : string;
  reg_password : string;
  reg_faceImage : string
}.

Record VerifyPasswordRequest : Type := {
  vp_userId : string;
  vp_password : string
}.

Record VerifyFaceRequest : Type := {
  vf_userId : string;
  vf_faceImage : string
}.

Record CheckUserRequest : Type := {
  cu_userId : string
}.

Record RegisterUserBody : Type := { success : bool; message : string }.
Record VerifyPasswordBody : Type := { valid : bool }.
Record VerifyFaceBody : Type := { verified : bool; distance : float }.
Record CheckUserBody : Type := { exists_ : bool }.

(** An exception no handler catches; the framework answers 500. *)
Inductive exn : Type :=
| IntegrityError
| JSONError
| ValueError.

(** What a handler gives back: a 200 body, an HTTPException it raised, or
    an exception it did not catch. *)
Inductive response (B : Type) : Type :=
| Ok (body : B)
| HTTPException (status_code : nat) (detail : string)
| Unhandled (e : exn).

Arguments Ok {B} body.
Arguments HTTPException {B} status_code detail.
Arguments Unhandled {B} e.

Definition is_ok {B : Type} (r : response B) : bool :=
  match r with
  | Ok _ => true
  | _ => false
  end.

(** ** The handlers *)

Section Handlers.

Variable L : Libraries.

Definition get_face_encoding_from_base64 (base64_image : string) : option ndarray :=
  try_except
    (payload <- last_item (split comma base64_image) ;;
     image_data <- L.(b64decode) payload ;;
     img <- L.(imdecode) image_data ;;
     match img with
     | None => Some None
     | Some img =>
         rgb <- L.(cvtColor) img ;;
         encodings <- L.(face_encodings) rgb ;;
         Some (match encodings with
               | first :: _ => Some first
               | [] => None
               end)
     end)
    None.

(** [gensalt()] draws the salt; here it is an argument of the handler. *)
Definition register_user (salt : bytes) (data : RegisterUserRequest) (db : users)
  : response RegisterUserBody * users :=
  match fetchone (select_where_user_id data.(reg_userId) db) with
  | Some _ => (HTTPException 409 "User already exists", db)
  | None =>
      match get_face_encoding_from_base64 data.(reg_faceImage) with
      | None => (HTTPException 400 "Face not detected", db)
      | Some face_encoding =>
          let password_hash := decode (L.(hashpw) (encode data.(reg_password)) salt) in
          let face_json := L.(json_dumps) face_encoding in
          match insert_user data.(reg_userId) password_hash (Some face_json) db with
          | None => (Unhandled IntegrityError, db)
          | Some db' => (Ok {| success := true; message := "User registered" |}, db')
          end
      end
  end.

Definition verify_password (data : VerifyPasswordRequest) (db : users)
  : response VerifyPasswordBody * users :=
  match fetchone (map password_hash (select_where_user_id data.(vp_userId) db)) with
  | None => (HTTPException 404 "User not found", db)
  | Some row0 =>
      let is_valid := L.(checkpw) (encode data.(vp_password)) (encode row0) in
      (Ok {| valid := is_valid |}, db)
  end.

Definition verify_face (data : VerifyFaceRequest) (db : users)
  : response VerifyFaceBody * users :=
  match fetchone (map face_encoding (select_where_user_id data.(vf_userId) db)) with
  | None => (HTTPException 404 "User not found", db)
  | Some row0 =>
      match bind row0 L.(json_loads) with
      | None => (Unhandled JSONError, db)
      | Some stored_encoding =>
          match get_face_encoding_from_base64 data.(vf_faceImage) with
          | None => (HTTPException 400 "Face not detected", db)
          | Some incoming_encoding =>
              match compare_faces [stored_encoding] incoming_encoding tolerance,
                    face_distance [stored_encoding] incoming_encoding with
              | Some (is_match :: _), Some (distance :: _) =>
                  (Ok {| verified := is_match; distance := distance |}, db)
              | _, _ => (Unhandled ValueError, db)
              end
          end
      end
  end.

Definition check_user (data : CheckUserRequest) (db : users)
  : response CheckUserBody * users :=
  let exists_ :=
    match fetchone (select_where_user_id data.(cu_userId) db) with
    | Some _ => true
    | None => false
    end in
  (Ok {| exists_ := exists_ |}, db).

(** *** Sequences of requests *)

Inductive request : Type :=
| RegisterUser (salt : bytes) (data : RegisterUserRequest)
| VerifyPassword (data : VerifyPasswordRequest)
| VerifyFace (data : VerifyFaceRequest)
| CheckUser (data : CheckUserRequest).

(** The table after one request. *)
Definition handle (r : request) (db : users) : users :=
  match r with
  | RegisterUser salt data => snd (register_user salt data db)
  | VerifyPassword data => snd (verify_password data db)
  | VerifyFace data => snd (verify_face data db)
  | CheckUser data => snd (check_user data db)
  end.

(** The table after the requests [rs], served one after the other. *)
Definition serve (rs : list request) (db : users) : users :=
  fold_left (fun db r => handle r db) rs db.

(** *** Registrations served by concurrent workers

    The framework runs each request in a worker thread, and every call of
    [register_user] opens a connection of its own.  SQLite runs one
    statement at a time, so a registration meets the table twice: at its
    SELECT, and at its INSERT with the commit.  Between the two the worker
    holds what it computed from the request. *)

Inductive progress : Type :=
| AtSelect
| AtInsert (password_hash face_json : string)
| Done (r : response RegisterUserBody).

Record worker : Type := {
  w_salt : bytes;
  w_data : RegisterUserRequest;
  w_at : progress
}.

(** A worker that has received its request and run nothing yet. *)
Definition start (salt : bytes) (data : RegisterUserRequest) : worker :=
  {| w_salt := salt; w_data := data; w_at := AtSelect |}.

Definition move (w : worker) (p : progress) : worker :=
  {| w_salt := w.(w_salt); w_data := w.(w_data); w_at := p |}.

(** The worker runs up to and including its next statement on the table:
    the lines of [register_user], cut after the SELECT's branch. *)
Definition worker_step (w : worker) (db : users) : worker * users :=
  match w.(w_at) with
  | AtSelect =>
      match fetchone (select_where_user_id w.(w_data).(reg_userId) db) with
      | Some _ => (move w (Done (HTTPException 409 "User already exists")), db)
      | None =>
          match get_face_encoding_from_base64 w.(w_data).(reg_faceImage) with
          | None => (move w (Done (HTTPException 400 "Face not detected")), db)
          | Some face_encoding =>
              let password_hash :=
                decode (L.(hashpw) (encode w.(w_data).(reg_password)) w.(w_salt)) in
              let face_json := L.(json_dumps) face_encoding in
              (move w (AtInsert password_hash face_json), db)
          end
      end
  | AtInsert password_hash face_json =>
      match insert_user w.(w_data).(reg_userId) password_hash (Some face_json) db with
      | None => (move w (Done (Unhandled IntegrityError)), db)
      | Some db' =>
          (move w (Done (Ok {| success := true; message := "User registered" |})), db')
      end
  | Done _ => (w, db)
  end.

(** [ws] with its [i]-th worker replaced. *)
Fixpoint replace_nth (i : nat) (w : worker) (ws : list worker) : list worker :=
  match ws, i with
  | [], _ => []
  | _ :: ws', O => w :: ws'
  | w0 :: ws', S i' => w0 :: replace_nth i' w ws'
  end.

(** A schedule names, statement by statement, the worker that runs next. *)
Fixpoint run_schedule (schedule : list nat) (ws : list worker) (db : users)
  : list worker * users :=
  match schedule with
  | [] => (ws, db)
  | i :: schedule' =>
      match nth_error ws i with
      | None => run_schedule schedule' ws db
      | Some w =>
          let (w', db') := worker_step w db in
          run_schedule schedule' (replace_nth i w' ws) db'
      end
  end.

(** The workers that answered 200 to a registration of [uid]. *)
Definition succeeded (uid : string) (w : worker) : bool :=
  String.eqb w.(w_data).(reg_userId) uid &&
  match w.(w_at) with
  | Done r => is_ok r
  | _ => false
  end.

(** The workers that answered something else than 200. *)
Definition failed (w : worker) : bool :=
  match w.(w_at) with
  | Done r => negb (is_ok r)
  | _ => false
  end.

Definition finished (w : worker) : bool :=
  match w.(w_at) with
  | Done _ => true
  | _ => false
  end.

End Handlers.

(** ** Stand-ins for the libraries

    In-memory fakes of the collaborators, to run the handlers on concrete
    requests.  An image is its bytes; every byte other than the character
    0 is one face, and the face's encoding repeats the byte's value, scaled
    into the unit interval, 128 times. *)

Module TestDouble.

(** Text whose length is no multiple of four has incorrect padding. *)
Definition fake_b64decode (s : string) : raising bytes :=
  if Nat.eqb (Nat.modulo (String.length s) 4) 0 then Some (encode s) else None.

(** An empty buffer raises; bytes that start with x are no image. *)
Definition fake_imdecode (data : bytes) : raising (option bytes) :=
  match data with
  | [] => None
  | b :: _ => if Byte.eqb b Byte.x78 then Some None else Some (Some data)
  end.

Definition fake_cvtColor (img : bytes) : raising bytes := Some img.

(** The byte's value over 256. *)
Definition float_of_byte (b : Byte.byte) : float :=
  SF2Prim (binary_normalize prec emax (Z.of_N (Byte.to_N b)) (-8)%Z false).

Definition fake_face_encodings (img : bytes) : raising (list ndarray) :=
  Some (map (fun b => repeat (float_of_byte b) 128)
            (filter (fun b => negb (Byte.eqb b Byte.x30)) img)).

(** The fake hash is the password itself. *)
Definition fake_hashpw (password salt : bytes) : bytes := password.

Definition fake_checkpw (password hashed_password : bytes) : bool :=
  if list_eq_dec Byte.byte_eq_dec password hashed_password then true else false.

(** The fake codec writes a float as its sign, mantissa and exponent, in
    binary digits, and an array as a tally of its length and its floats. *)
Fixpoint write_pos (p : positive) : string :=
  match p with
  | xH => "."
  | xO q => String "0" (write_pos q)
  | xI q => String "1" (write_pos q)
  end.

Fixpoint read_pos (s : string) : option (positive * string) :=
  match s with
  | EmptyString => None
  | String c s' =>
      if Ascii.eqb c "." then Some (xH, s')
      else match read_pos s' with
           | None => None
           | Some (q, rest) =>
               if Ascii.eqb c "0" then Some (xO q, rest)
               else if Ascii.eqb c "1" then Some (xI q, rest)
               else None
           end
  end.

Definition write_Z (z : Z) : string :=
  match z with
  | Z0 => "z"
  | Zpos p => String "+" (write_pos p)
  | Zneg p => String "-" (write_pos p)
  end.

Definition read_Z (s : string) : option (Z * string) :=
  match s with
  | EmptyString => None
  | String c s' =>
      if Ascii.eqb c "z" then Some (Z0, s')
      else match read_pos s' with
           | None => None
           | Some (p, rest) =>
               if Ascii.eqb c "+" then Some (Zpos p, rest)
               else if Ascii.eqb c "-" then Some (Zneg p, rest)
               else None
           end
  end.

Definition write_sign (s : bool) : ascii := if s then "-"%char else "+"%char.

Definition read_sign (c : ascii) : option bool :=
  if Ascii.eqb c "-" then Some true
  else if Ascii.eqb c "+" then Some false
  else None.

Definition write_float (x : float) : string :=
  match Prim2SF x with
  | S754_nan => "N"
  | S754_infinity s => String "I" (String (write_sign s) "")
  | S754_zero s => String "Z" (String (write_sign s) "")
  | S754_finite s m e => String "F" (String (write_sign s) (write_pos m ++ write_Z e))
  end.

Definition read_float (s : string) : option (float * string) :=
  match s with
  | String "N" rest => Some (SF2Prim S754_nan, rest)
  | String "I" (String c rest) =>
      option_map (fun sg => (SF2Prim (S754_infinity sg), rest)) (read_sign c)
  | String "Z" (String c rest) =>
      option_map (fun sg => (SF2Prim (S754_zero sg), rest)) (read_sign c)
  | String "F" (String c rest) =>
      match read_sign c, read_pos rest with
      | Some sg, Some (m, rest') =>
          option_map (fun er => (SF2Prim (S754_finite sg m (fst er)), snd er))
                     (read_Z rest')
      | _, _ => None
      end
  | _ => None
  end.

Fixpoint write_floats (v : ndarray) : string :=
  match v with
  | [] => ""
  | x :: v' => write_float x ++ write_floats v'
  end.

Fixpoint read_floats (n : nat) (s : string) : option (ndarray * string) :=
  match n with
  | O => Some ([], s)
  | S n' =>
      match read_float s with
      | None => None
      | Some (x, rest) =>
          option_map (fun vr => (x :: fst vr, snd vr)) (read_floats n' rest)
      end
  end.

Fixpoint write_tally (n : nat) : string :=
  match n with
  | O => ":"
  | S n' => String "i" (write_tally n')
  end.

Fixpoint read_tally (s : string) : option (nat * string) :=
  match s with
  | EmptyString => None
  | String c s' =>
      if Ascii.eqb c ":" then Some (O, s')
      else if Ascii.eqb c "i"
           then option_map (fun nr => (S (fst nr), snd nr)) (read_tally s')
           else None
  end.

Definition fake_json_dumps (v : ndarray) : string :=
  write_tally (length v) ++ write_floats v.

Definition fake_json_loads (s : string) : raising ndarray :=
  match read_tally s with
  | None => None
  | Some (n, rest) =>
      match read_floats n rest with
      | Some (v, EmptyString) => Some v
      | _ => None
      end
  end.

Definition libs : Libraries := {|
  image := bytes;
  b64decode := fake_b64decode;
  imdecode := fake_imdecode;
  cvtColor := fake_cvtColor;
  face_encodings := fake_face_encodings;
  hashpw := fake_hashpw;
  checkpw := fake_checkpw;
  json_dumps := fake_json_dumps;
  json_loads := fake_json_loads
|}.

(** Two requests for one user id, with different passwords and images, a
    request without a face, and the salts drawn for them. *)
Definition alice : RegisterUserRequest :=
  {| reg_userId := "alice"; reg_password := "p1";
     reg_faceImage := "data:image/png;base64,A000" |}.

Definition alice_again : RegisterUserRequest :=
  {| reg_userId := "alice"; reg_password := "p2";
     reg_faceImage := "data:image/jpeg;base64,zB00" |}.

Definition faceless : RegisterUserRequest :=
  {| reg_userId := "bob"; reg_password := "p3"; reg_faceImage := "0000" |}.

Definition salt1 : bytes := encode "$2b$12$saltsaltsaltsaltsalt11".
Definition salt2 : bytes := encode "$2b$12$saltsaltsaltsaltsalt22".

End TestDouble.

(** ** What a registration leaves behind *)

(** The row a successful registration appends. *)
Definition new_row (L : Libraries) (salt : bytes) (data : RegisterUserRequest)
    (encoding : ndarray) (db : users) : user_row :=
  {| id := next_id db;
     user_id := data.(reg_userId);
     password_hash := decode (L.(hashpw) (encode data.(reg_password)) salt);
     face_encoding := Some (L.(json_dumps) encoding) |}.

(** The three ways a registration ends when requests are served one after
    the other. *)
Inductive register_outcome (L : Libraries) (salt : bytes)
    (data : RegisterUserRequest) (db : users)
  : response RegisterUserBody * users -> Prop :=
| outcome_conflict :
    In data.(reg_userId) (user_ids db) ->
    register_outcome L salt data db (HTTPException 409 "User already exists", db)
| outcome_no_face :
    ~ In data.(reg_userId) (user_ids db) ->
    get_face_encoding_from_base64 L data.(reg_faceImage) = None ->
    register_outcome L salt data db (HTTPException 400 "Face not detected", db)
| outcome_registered encoding :
    ~ In data.(reg_userId) (user_ids db) ->
    get_face_encoding_from_base64 L data.(reg_faceImage) = Some encoding ->
    register_outcome L salt data db
      (Ok {| success := true; message := "User registered" |},
       db ++ [new_row L salt data encoding db]).

(** A row written by [register_user]: its encoding column holds the text
    of a vector the extractor returned for some image. *)
Definition registered_row (L : Libraries) (r : user_row) : Prop :=
  exists base64_image encoding,
    get_face_encoding_from_base64 L base64_image = Some encoding /\
    r.(face_encoding) = Some (L.(json_dumps) encoding).

(** ** Counting rows and answers *)

Definition nat_of_bool (b : bool) : nat := if b then 1 else 0.

(** The number of rows of [uid]. *)
Definition count_rows (uid : string) (db : users) : nat :=
  count_occ string_dec (user_ids db) uid.

(** The number of workers that answered 200 to a registration of [uid]. *)
Definition count_succeeded (uid : string) (ws : list worker) : nat :=
  length (filter (succeeded uid) ws).

(** Registrations are atomic: under every schedule that lets workers with
    fresh requests for one user id and usable images run to their answers,
    a worker that did not register the user answers 409. *)
Definition registrations_atomic (L : Libraries) : Prop :=
  forall (schedule : list nat) (ws : list worker) (uid : string),
    Forall (fun w => w.(w_at) = AtSelect /\ w.(w_data).(reg_userId) = uid /\
                     get_face_encoding_from_base64 L w.(w_data).(reg_faceImage) <> None)
           ws ->
    Forall (fun w => finished w = true) (fst (run_schedule L schedule ws init_db)) ->
    Forall (fun w => failed w = true ->
                     w.(w_at) = Done (HTTPException 409 "User already exists"))
           (fst (run_schedule L schedule ws init_db)).

(** * Proofs *)

(** ** Splitting at commas *)

Lemma split_not_nil sep s : split sep s <> [].
Proof.
  destruct s as [|c s]; simpl; [discriminate|].
  destruct (Ascii.eqb c sep); [discriminate|].
  destruct (split sep s); discriminate.
Qed.

Lemma split_free sep s : Forall (fun piece => free_of sep piece = true) (split sep s).
Proof.
  induction s as [|c s IH]; simpl.
  - repeat constructor.
  - destruct (Ascii.eqb c sep) eqn:E.
    + constructor; [reflexivity | exact IH].
    + destruct (split sep s) as [|piece pieces].
      * constructor; [simpl; now rewrite E | constructor].
      * inversion IH; subst. constructor; [simpl; now rewrite E | assumption].
Qed.

(** Joining the pieces with the separator gives the string back. *)
Lemma concat_split sep s : String.concat (String sep "") (split sep s) = s.
Proof.
  induction s as [|c s IH]; simpl; [reflexivity|].
  destruct (Ascii.eqb c sep) eqn:E.
  - apply Ascii.eqb_eq in E; subst c.
    pose proof (split_not_nil sep s) as Hne.
    destruct (split sep s) as [|piece pieces]; [congruence|].
    simpl in *. now rewrite IH.
  - pose proof (split_not_nil sep s) as Hne.
    destruct (split sep s) as [|piece pieces]; [congruence|].
    destruct pieces as [|piece' pieces]; simpl in *; now rewrite <- IH.
Qed.

Lemma last_item_snoc {A : Type} (l : list A) (x : A) : last_item (l ++ [x]) = Some x.
Proof.
  induction l as [|y l IH]; [reflexivity|].
  simpl. destruct (l ++ [x]) eqn:E; [now destruct l | exact IH].
Qed.

Lemma string_app_assoc (a b c : string) : ((a ++ b) ++ c = a ++ (b ++ c))%string.
Proof. induction a as [|x a IH]; simpl; [reflexivity | now rewrite IH]. Qed.

Lemma concat_snoc sep (l : list string) (x : string) :
  l <> [] ->
  String.concat sep (l ++ [x]) = (String.concat sep l ++ sep ++ x)%string.
Proof.
  induction l as [|y l IH]; [congruence|]. intros _.
  destruct l as [|z l].
  - reflexivity.
  - change (String.concat sep ((y :: z :: l) ++ [x]))
      with (y ++ sep ++ String.concat sep ((z :: l) ++ [x]))%string.
    rewrite IH by discriminate.
    change (String.concat sep (y :: z :: l))
      with (y ++ sep ++ String.concat sep (z :: l))%string.
    now rewrite !string_app_assoc.
Qed.

(** [split(',')[-1]] is the text after the last comma. *)
Lemma last_item_split_comma s :
  exists payload, last_item (split comma s) = Some payload /\ after_last_comma s payload.
Proof.
  pose proof (split_not_nil comma s) as Hne.
  pose proof (split_free comma s) as Hfree.
  pose proof (concat_split comma s) as Hcat.
  destruct (exists_last Hne) as [pieces [payload Hsplit]].
  rewrite Hsplit in *. exists payload. split; [apply last_item_snoc|].
  split.
  - apply Forall_app in Hfree. destruct Hfree as [_ Hp]. now inversion Hp.
  - destruct pieces as [|piece pieces].
    + left. now rewrite <- Hcat.
    + right. exists (String.concat (String comma "") (piece :: pieces)).
      rewrite <- Hcat. now rewrite concat_snoc by discriminate.
Qed.

Lemma free_of_app_sep c before s : free_of c (before ++ String c s)%string = false.
Proof.
  induction before as [|a before IH]; simpl.
  - now rewrite Ascii.eqb_refl.
  - rewrite IH. apply andb_false_r.
Qed.

Lemma suffix_after_last c b1 b2 p1 p2 :
  free_of c p1 = true -> free_of c p2 = true ->
  (b1 ++ String c p1 = b2 ++ String c p2)%string -> p1 = p2.
Proof.
  intros H1 H2. revert b2.
  induction b1 as [|a b1 IH]; intros [|a' b2] E; simpl in E.
  - now inversion E.
  - inversion E; subst. now rewrite free_of_app_sep in H1.
  - inversion E; subst. now rewrite free_of_app_sep in H2.
  - inversion E; subst. now apply (IH b2).
Qed.

(** A string has one payload. *)
Lemma after_last_comma_unique s p1 p2 :
  after_last_comma s p1 -> after_last_comma s p2 -> p1 = p2.
Proof.
  intros [F1 [E1 | [b1 E1]]] [F2 [E2 | [b2 E2]]]; subst.
  - reflexivity.
  - now rewrite free_of_app_sep in F1.
  - now rewrite free_of_app_sep in F2.
  - now apply (suffix_after_last comma b1 b2).
Qed.

(** ** The extractor *)

(** What the extractor does with the payload once it is cut out. *)
Lemma get_face_encoding_from_base64_steps (L : Libraries) base64_image payload :
  last_item (split comma base64_image) = Some payload ->
  get_face_encoding_from_base64 L base64_image =
    match L.(b64decode) payload with
    | None => None
    | Some image_data =>
        match L.(imdecode) image_data with
        | None | Some None => None
        | Some (Some img) =>
            match L.(cvtColor) img with
            | None => None
            | Some rgb =>
                match L.(face_encodings) rgb with
                | None | Some [] => None
                | Some (first :: _) => Some first
                end
            end
        end
    end.
Proof.
  intros Hlast. unfold get_face_encoding_from_base64. rewrite Hlast. simpl.
  destruct (b64decode L payload) as [image_data|]; simpl; [|reflexivity].
  destruct (imdecode L image_data) as [[img|]|]; simpl; try reflexivity.
  destruct (cvtColor L img) as [rgb|]; simpl; [|reflexivity].
  destruct (face_encodings L rgb) as [[|first rest]|]; reflexivity.
Qed.

(** C6: the extractor takes the text after the last comma of [faceImage]
    (the whole text when there is no comma) as the base64 payload, and
    nothing else of the string; it returns None when base64 decoding or
    image decoding fails, when a later step raises, and when no face is
    detected, and the encoding of the first detected face otherwise. *)
Theorem get_face_encoding_from_base64_spec (L : Libraries) (base64_image : string) :
  exists payload : string,
    after_last_comma base64_image payload /\
    (forall p, after_last_comma base64_image p -> p = payload) /\
    get_face_encoding_from_base64 L base64_image =
      match L.(b64decode) payload with
      | None => None
      | Some image_data =>
          match L.(imdecode) image_data with
          | None | Some None => None
          | Some (Some img) =>
              match L.(cvtColor) img with
              | None => None
              | Some rgb =>
                  match L.(face_encodings) rgb with
                  | None | Some [] => None
                  | Some (first :: _) => Some first
                  end
              end
          end
      end.
Proof.
  destruct (last_item_split_comma base64_image) as [payload [Hlast Hpayload]].
  exists payload. split; [exact Hpayload|]. split.
  - intros p Hp. exact (after_last_comma_unique _ _ _ Hp Hpayload).
  - now apply get_face_encoding_from_base64_steps.
Qed.

(** ** The table *)

Lemma existsb_user_id uid (db : users) :
  existsb (fun r => String.eqb r.(user_id) uid) db = true <-> In uid (user_ids db).
Proof.
  unfold user_ids. rewrite existsb_exists, in_map_iff. split.
  - intros [r [Hin E]]. apply String.eqb_eq in E. now exists r.
  - intros [r [E Hin]]. exists r. split; [assumption|]. now apply String.eqb_eq.
Qed.

Lemma fetchone_select_none uid db :
  fetchone (select_where_user_id uid db) = None <-> ~ In uid (user_ids db).
Proof.
  unfold fetchone, select_where_user_id, user_ids.
  induction db as [|r db IH]; simpl.
  - tauto.
  - destruct (String.eqb_spec r.(user_id) uid) as [E|E]; simpl.
    + split; [discriminate | intros H; exfalso; apply H; now left].
    + rewrite IH. tauto.
Qed.

Lemma fetchone_select_some uid db :
  In uid (user_ids db) -> exists r, fetchone (select_where_user_id uid db) = Some r.
Proof.
  intros Hin. destruct (fetchone (select_where_user_id uid db)) as [r|] eqn:E.
  - now exists r.
  - apply fetchone_select_none in E. contradiction.
Qed.

Lemma fetchone_select_user_id uid db r :
  fetchone (select_where_user_id uid db) = Some r -> r.(user_id) = uid /\ In r db.
Proof.
  unfold fetchone, select_where_user_id. intros H.
  assert (Hin : In r (filter (fun r => String.eqb r.(user_id) uid) db)).
  { destruct (filter _ db); [discriminate|]. inversion H; subst. now left. }
  apply filter_In in Hin. destruct Hin as [Hin E]. apply String.eqb_eq in E. tauto.
Qed.

Lemma fetchone_map {A B : Type} (f : A -> B) (rows : list A) :
  fetchone (map f rows) = option_map f (fetchone rows).
Proof. now destruct rows. Qed.

(** A row found by its user id is still the one found after more rows
    came in: the table only grows at its end. *)
Lemma fetchone_select_app uid db more r :
  fetchone (select_where_user_id uid db) = Some r ->
  fetchone (select_where_user_id uid (db ++ more)) = Some r.
Proof.
  unfold fetchone, select_where_user_id. rewrite filter_app.
  destruct (filter _ db); [discriminate|]. now simpl.
Qed.

Lemma fetchone_select_snoc_new uid db r :
  ~ In uid (user_ids db) -> r.(user_id) = uid ->
  fetchone (select_where_user_id uid (db ++ [r])) = Some r.
Proof.
  intros Hnew E. apply fetchone_select_none in Hnew.
  unfold fetchone, select_where_user_id in *. rewrite filter_app.
  destruct (filter _ db); [|discriminate]. simpl.
  rewrite <- E, String.eqb_refl. reflexivity.
Qed.

Lemma insert_user_new uid ph fe db :
  ~ In uid (user_ids db) ->
  insert_user uid ph fe db =
    Some (db ++ [{| id := next_id db; user_id := uid;
                    password_hash := ph; face_encoding := fe |}]).
Proof.
  intros Hnew. unfold insert_user.
  destruct (existsb _ db) eqn:E; [|reflexivity].
  apply existsb_user_id in E. contradiction.
Qed.

(** The INSERT keeps the user ids of the table distinct. *)
Lemma insert_user_NoDup uid ph fe db db' :
  NoDup (user_ids db) -> insert_user uid ph fe db = Some db' -> NoDup (user_ids db').
Proof.
  unfold insert_user. intros Hnd.
  destruct (existsb _ db) eqn:E; [discriminate|]. intros [= <-].
  assert (Hnew : ~ In uid (user_ids db)).
  { intros Hin. apply existsb_user_id in Hin. congruence. }
  unfold user_ids in *. rewrite map_app. simpl.
  apply NoDup_app; repeat constructor; simpl; try tauto.
  intros x Hx [<- | []]. contradiction.
Qed.

(** ** Registration *)

Lemma register_user_outcome (L : Libraries) salt data db :
  register_outcome L salt data db (register_user L salt data db).
Proof.
  unfold register_user.
  destruct (fetchone (select_where_user_id (reg_userId data) db)) as [r|] eqn:Hsel.
  - apply outcome_conflict.
    apply fetchone_select_user_id in Hsel. destruct Hsel as [E Hin].
    unfold user_ids. rewrite <- E. now apply in_map.
  - apply fetchone_select_none in Hsel.
    destruct (get_face_encoding_from_base64 L (reg_faceImage data)) as [enc|] eqn:Hface.
    + rewrite insert_user_new by assumption. now apply outcome_registered.
    + now apply outcome_no_face.
Qed.

Lemma register_user_conflict (L : Libraries) salt data db :
  In data.(reg_userId) (user_ids db) ->
  register_user L salt data db = (HTTPException 409 "User already exists", db).
Proof.
  intros Hin. unfold register_user.
  destruct (fetchone_select_some _ _ Hin) as [r ->]. reflexivity.
Qed.

Lemma register_user_ok_inv (L : Libraries) salt data db body db' :
  register_user L salt data db = (Ok body, db') ->
  ~ In data.(reg_userId) (user_ids db) /\
  exists encoding,
    get_face_encoding_from_base64 L data.(reg_faceImage) = Some encoding /\
    db' = db ++ [new_row L salt data encoding db].
Proof.
  intros H. pose proof (register_user_outcome L salt data db) as Hout.
  rewrite H in Hout. inversion Hout; subst. split; [assumption|].
  now exists encoding.
Qed.

Lemma user_ids_snoc db r : user_ids (db ++ [r]) = user_ids db ++ [r.(user_id)].
Proof. unfold user_ids. now rewrite map_app. Qed.

(** Registering an id twice: the second call finds the row of the first. *)
Lemma register_user_twice (L : Libraries) salt1 salt2 data1 data2 db body db1 :
  register_user L salt1 data1 db = (Ok body, db1) ->
  data2.(reg_userId) = data1.(reg_userId) ->
  register_user L salt2 data2 db1 = (HTTPException 409 "User already exists", db1).
Proof.
  intros H E. apply register_user_ok_inv in H. destruct H as [_ [enc [_ ->]]].
  apply register_user_conflict. rewrite user_ids_snoc, E.
  apply in_or_app. right. now left.
Qed.

(** C1: for a user id that already has a row in the table, register-user
    answers 409 "User already exists", whatever password and faceImage the
    request carries and whatever salt is drawn, and the table afterwards is
    the table before: no row inserted, changed or removed. *)
Theorem register_user_existing_id (L : Libraries) (salt : bytes)
    (data : RegisterUserRequest) (db : users) :
  In data.(reg_userId) (user_ids db) ->
  register_user L salt data db = (HTTPException 409 "User already exists", db).
Proof.
  intros Hin. unfold register_user.
  destruct (fetchone (select_where_user_id (reg_userId data) db)) as [r|] eqn:Hsel.
  - reflexivity.
  - apply fetchone_select_none in Hsel. contradiction.
Qed.

(** The second of two registrations of alice, with another password and
    another image, is refused and leaves the table of the first. *)
Lemma register_user_existing_id_witness :
  let db1 := snd (register_user TestDouble.libs TestDouble.salt1 TestDouble.alice init_db) in
  user_ids db1 = ["alice"] /\
  register_user TestDouble.libs TestDouble.salt2 TestDouble.alice_again db1
    = (HTTPException 409 "User already exists", db1).
Proof.
  split; [reflexivity|].
  apply (register_user_existing_id TestDouble.libs TestDouble.salt2 TestDouble.alice_again).
  simpl. now left.
Defined.

(** Served one after the other, a registration answers 200, 409 or 400:
    the INSERT cannot fail after the SELECT found no row. *)
Lemma register_user_handled (L : Libraries) salt data db e :
  fst (register_user L salt data db) <> Unhandled e.
Proof.
  destruct (register_user_outcome L salt data db); simpl; discriminate.
Qed.

Lemma register_user_failure_unchanged (L : Libraries) salt data db :
  is_ok (fst (register_user L salt data db)) = false ->
  snd (register_user L salt data db) = db.
Proof.
  destruct (register_user_outcome L salt data db); simpl; congruence.
Qed.

(** ** Tables the service can reach *)

(** Every handler leaves the table as it is or adds rows at its end. *)
Lemma handle_extends (L : Libraries) r db :
  handle L r db = db \/
  exists salt data encoding,
    ~ In data.(reg_userId) (user_ids db) /\
    get_face_encoding_from_base64 L data.(reg_faceImage) = Some encoding /\
    handle L r db = db ++ [new_row L salt data encoding db].
Proof.
  destruct r as [salt data|data|data|data]; simpl.
  - destruct (register_user_outcome L salt data db); simpl; try tauto.
    right. now exists salt, data, encoding.
  - left. unfold verify_password. now destruct (fetchone _).
  - left. unfold verify_face.
    destruct (fetchone _) as [row0|]; [|reflexivity].
    destruct (bind row0 _); [|reflexivity].
    destruct (get_face_encoding_from_base64 _ _); [|reflexivity].
    destruct (compare_faces _ _ _) as [[|? ?]|]; try reflexivity.
    destruct (face_distance _ _) as [[|? ?]|]; reflexivity.
  - left. reflexivity.
Qed.

Lemma serve_cons (L : Libraries) r rs db :
  serve L (r :: rs) db = serve L rs (handle L r db).
Proof. reflexivity. Qed.

Lemma serve_extends (L : Libraries) rs db : exists more, serve L rs db = db ++ more.
Proof.
  revert db. induction rs as [|r rs IH]; intros db.
  - exists []. now rewrite app_nil_r.
  - rewrite serve_cons. destruct (IH (handle L r db)) as [more Hmore]. rewrite Hmore.
    destruct (handle_extends L r db) as [-> | [salt [data [enc [_ [_ ->]]]]]].
    + now exists more.
    + rewrite <- app_assoc. now eexists.
Qed.

(** A property of rows that holds of every row [register_user] appends
    holds of every row of a table the service reaches. *)
Lemma serve_rows (L : Libraries) (P : user_row -> Prop) :
  (forall salt data encoding db,
      get_face_encoding_from_base64 L data.(reg_faceImage) = Some encoding ->
      P (new_row L salt data encoding db)) ->
  forall rs db, Forall P db -> Forall P (serve L rs db).
Proof.
  intros Hnew rs. induction rs as [|r rs IH]; intros db Hdb; [assumption|].
  rewrite serve_cons. apply IH.
  destruct (handle_extends L r db) as [-> | [salt [data [enc [_ [Hface ->]]]]]].
  - assumption.
  - apply Forall_app. split; [assumption|]. constructor; [|constructor].
    now apply Hnew.
Qed.

Lemma serve_registered_rows (L : Libraries) rs :
  Forall (registered_row L) (serve L rs init_db).
Proof.
  apply serve_rows; [|constructor].
  intros salt data enc db Hface. now exists data.(reg_faceImage), enc.
Qed.

(** The user ids of a reachable table are distinct. *)
Lemma serve_NoDup (L : Libraries) rs db :
  NoDup (user_ids db) -> NoDup (user_ids (serve L rs db)).
Proof.
  revert db. induction rs as [|r rs IH]; intros db Hnd; [assumption|].
  rewrite serve_cons. apply IH.
  destruct (handle_extends L r db) as [-> | [salt [data [enc [Hnew [_ ->]]]]]].
  - assumption.
  - rewrite user_ids_snoc. apply NoDup_app; repeat constructor; simpl; try tauto.
    intros x Hx [<- | []]. contradiction.
Qed.

(** C2: a register-user request that fails, with 409, with 400 or in any
    other way, leaves the table as it was; the table changes only when the
    SELECT found no row and the extractor returned an encoding, and then by
    the one complete row; served one after the other, requests never raise
    an unhandled error at the INSERT; and no table the service reaches from
    the empty one holds a row without a face encoding. *)
Theorem register_user_no_partial_effect (L : Libraries) :
  (forall salt data db,
      is_ok (fst (register_user L salt data db)) = false ->
      snd (register_user L salt data db) = db) /\
  (forall salt data db,
      snd (register_user L salt data db) <> db ->
      ~ In data.(reg_userId) (user_ids db) /\
      exists encoding,
        get_face_encoding_from_base64 L data.(reg_faceImage) = Some encoding /\
        register_user L salt data db =
          (Ok {| success := true; message := "User registered" |},
           db ++ [new_row L salt data encoding db])) /\
  (forall salt data db,
      fst (register_user L salt data db) = HTTPException 409 "User already exists" \/
      fst (register_user L salt data db) = HTTPException 400 "Face not detected" \/
      fst (register_user L salt data db) =
        Ok {| success := true; message := "User registered" |}) /\
  (forall rs, Forall (fun r => r.(face_encoding) <> None) (serve L rs init_db)).
Proof.
  repeat split.
  - apply register_user_failure_unchanged.
  - destruct (register_user_outcome L salt data db); simpl in *; congruence.
  - destruct (register_user_outcome L salt data db) as [| |enc Hnew Hface];
      simpl in *; try congruence.
    now exists enc.
  - intros salt data db. destruct (register_user_outcome L salt data db); simpl; tauto.
  - intros rs. eapply Forall_impl; [|apply serve_registered_rows].
    intros r [img [enc [_ ->]]]. discriminate.
Qed.

(** ** check-user *)


(** ** Binary64 arithmetic *)

Lemma Prim2SF_infinity : Prim2SF PrimFloat.infinity = S754_infinity false.
Proof. reflexivity. Qed.

(** A finite float is a zero or has a mantissa and an exponent. *)
Lemma is_finite_spec x :
  PrimFloat.is_finite x = true ->
  (exists s, Prim2SF x = S754_zero s) \/ (exists s m e, Prim2SF x = S754_finite s m e).
Proof.
  unfold PrimFloat.is_finite, PrimFloat.is_nan, PrimFloat.is_infinity.
  rewrite !eqb_spec, abs_spec, Prim2SF_infinity.
  destruct (Prim2SF x) as [s|s| |s m e]; cbn.
  - intros _. left. now exists s.
  - rewrite orb_true_r. discriminate.
  - discriminate.
  - intros _. right. now exists s, m, e.
Qed.

Lemma SFsub_diag prec emax x :
  (exists s, x = S754_zero s) \/ (exists s m e, x = S754_finite s m e) ->
  SFsub prec emax x x = S754_zero false.
Proof.
  intros [[s ->] | [s [m [e ->]]]]; cbn.
  - now destruct s.
  - rewrite Z.sub_diag. reflexivity.
Qed.

(** [x - x] is [+0.0] for a finite [x] ... *)
Lemma fsub_diag x : PrimFloat.is_finite x = true -> fsub x x = PrimFloat.zero.
Proof.
  intros H. apply Prim2SF_inj. unfold fsub. rewrite sub_spec. unfold SF64sub.
  rewrite SFsub_diag by now apply is_finite_spec. reflexivity.
Qed.

(** ... and NaN for a NaN and for an infinity. *)
Lemma fsub_diag_not_finite x : PrimFloat.is_finite x = false -> fsub x x = PrimFloat.nan.
Proof.
  unfold PrimFloat.is_finite, PrimFloat.is_nan, PrimFloat.is_infinity.
  rewrite !eqb_spec, abs_spec, Prim2SF_infinity. intros H.
  apply Prim2SF_inj. unfold fsub. rewrite sub_spec. unfold SF64sub.
  destruct (Prim2SF x) as [s|s| |s m e] eqn:E; cbn in *.
  - discriminate.
  - now destruct s.
  - reflexivity.
  - unfold SFeqb in H. cbn in H.
    rewrite Z.compare_refl, Pos.compare_cont_refl in H. now destruct s.
Qed.

(** Rounding does not look at the sign. *)
Lemma binary_round_aux_abs prec emax s s' m e l :
  SFabs (binary_round_aux prec emax s m e l) = SFabs (binary_round_aux prec emax s' m e l).
Proof.
  unfold binary_round_aux.
  destruct (shr_fexp prec emax m e l) as [mrs' e'].
  destruct (shr_fexp prec emax _ e' loc_Exact) as [mrs'' e''].
  destruct (shr_m mrs''); try reflexivity.
  destruct (Z.leb e'' _); reflexivity.
Qed.

Lemma binary_round_abs prec emax s s' m e :
  SFabs (binary_round prec emax s m e) = SFabs (binary_round prec emax s' m e).
Proof.
  unfold binary_round. destruct (shl_align _ _ _). apply binary_round_aux_abs.
Qed.

Lemma binary_normalize_opp prec emax m e sz sz' :
  SFabs (binary_normalize prec emax (- m) e sz) = SFabs (binary_normalize prec emax m e sz').
Proof.
  destruct m; cbn; try reflexivity; apply binary_round_abs.
Qed.

(** [x - y] and [y - x] differ in sign at most. *)
Lemma SFsub_abs_sym prec emax x y :
  SFabs (SFsub prec emax x y) = SFabs (SFsub prec emax y x).
Proof.
  destruct x as [sx|sx| |sx mx ex], y as [sy|sy| |sy my ey]; cbn;
    try reflexivity; try (destruct sx, sy; reflexivity).
  rewrite (Z.min_comm ey ex).
  rewrite <- (binary_normalize_opp prec emax _ _ false false).
  f_equal. f_equal. lia.
Qed.

(** A square does not depend on the sign of its argument. *)
Lemma SFmul_square_abs prec emax x y :
  SFabs x = SFabs y -> SFmul prec emax x x = SFmul prec emax y y.
Proof.
  destruct x as [sx|sx| |sx mx ex], y as [sy|sy| |sy my ey]; cbn; try discriminate;
    try reflexivity.
  - now destruct sx, sy.
  - now destruct sx, sy.
  - intros [= -> ->]. now destruct sx, sy.
Qed.

Lemma fsquare_fsub_sym x y : fsquare (fsub x y) = fsquare (fsub y x).
Proof.
  apply Prim2SF_inj. unfold fsquare, fsub. rewrite !mul_spec, !sub_spec.
  apply SFmul_square_abs, SFsub_abs_sym.
Qed.

Lemma add_nan_l y : PrimFloat.add PrimFloat.nan y = PrimFloat.nan.
Proof.
  apply Prim2SF_inj. rewrite add_spec. reflexivity.
Qed.

(** ** Distances *)

Lemma face_distance_same_length a b :
  length a = length b -> face_distance [a] b = Some [euclidean_distance a b].
Proof.
  intros E. simpl. unfold broadcast_sub. apply Nat.eqb_eq in E. now rewrite E.
Qed.

Lemma compare_faces_same_length a b tol :
  length a = length b ->
  compare_faces [a] b tol = Some [PrimFloat.leb (euclidean_distance a b) tol].
Proof.
  intros E. unfold compare_faces. now rewrite face_distance_same_length.
Qed.

Lemma map2_fsub_diag v : all_finite v = true -> map2 fsub v v = repeat PrimFloat.zero (length v).
Proof.
  induction v as [|x v IH]; simpl; [reflexivity|].
  intros H. apply andb_prop in H. destruct H as [Hx Hv].
  now rewrite fsub_diag, IH.
Qed.

Lemma add_reduce_zeros n :
  fold_left PrimFloat.add (map fsquare (repeat PrimFloat.zero n)) PrimFloat.zero
  = PrimFloat.zero.
Proof. induction n as [|n IH]; simpl; [reflexivity | exact IH]. Qed.

Lemma euclidean_distance_self v :
  all_finite v = true -> euclidean_distance v v = PrimFloat.zero.
Proof.
  intros H. unfold euclidean_distance.
  now rewrite map2_fsub_diag, add_reduce_zeros.
Qed.

Lemma fold_add_nan s : fold_left PrimFloat.add s PrimFloat.nan = PrimFloat.nan.
Proof. induction s as [|x s IH]; simpl; [reflexivity | now rewrite add_nan_l]. Qed.

Lemma fold_add_In_nan s acc :
  In PrimFloat.nan s -> fold_left PrimFloat.add s acc = PrimFloat.nan.
Proof.
  revert acc. induction s as [|x s IH]; intros acc; simpl; [tauto|].
  intros [-> | Hin]; [|now apply IH].
  replace (PrimFloat.add acc PrimFloat.nan) with PrimFloat.nan; [apply fold_add_nan|].
  apply Prim2SF_inj. rewrite add_spec. unfold SF64add.
  change (Prim2SF PrimFloat.nan) with S754_nan.
  now destruct (Prim2SF acc).
Qed.

(** A vector with a NaN or an infinite component is at distance NaN from
    itself. *)
Lemma euclidean_distance_self_not_finite v :
  all_finite v = false -> euclidean_distance v v = PrimFloat.nan.
Proof.
  intros H. unfold euclidean_distance.
  rewrite fold_add_In_nan; [reflexivity|].
  induction v as [|x v IH]; simpl in *; [discriminate|].
  destruct (PrimFloat.is_finite x) eqn:Hx; simpl in H.
  - right. now apply IH.
  - left. now rewrite fsub_diag_not_finite.
Qed.

Lemma map_fsquare_map2_sym a b :
  map fsquare (map2 fsub a b) = map fsquare (map2 fsub b a).
Proof.
  revert b. induction a as [|x a IH]; intros [|y b]; simpl; try reflexivity.
  now rewrite fsquare_fsub_sym, IH.
Qed.

Lemma map_fsquare_stretch_sym a y :
  map fsquare (map (fun x => fsub x y) a) = map fsquare (map (fun x => fsub y x) a).
Proof.
  induction a as [|x a IH]; simpl; [reflexivity|].
  now rewrite fsquare_fsub_sym, IH.
Qed.

(** The squared differences are the same in both directions, also when a
    length-one operand is stretched. *)
Lemma broadcast_sub_squares_sym a b :
  option_map (map fsquare) (broadcast_sub a b)
  = option_map (map fsquare) (broadcast_sub b a).
Proof.
  unfold broadcast_sub. rewrite (Nat.eqb_sym (length b) (length a)).
  destruct (Nat.eqb (length a) (length b)) eqn:Eab; simpl.
  - now rewrite map_fsquare_map2_sym.
  - destruct (Nat.eqb (length b) 1) eqn:Eb, (Nat.eqb (length a) 1) eqn:Ea; simpl;
      try reflexivity.
    + apply Nat.eqb_eq in Eb, Ea. apply Nat.eqb_neq in Eab. congruence.
    + now rewrite map_fsquare_stretch_sym.
    + now rewrite map_fsquare_stretch_sym.
Qed.

Lemma face_distance_one known candidate :
  face_distance [known] candidate =
    option_map (fun squares => [PrimFloat.sqrt (add_reduce squares)])
               (option_map (map fsquare) (broadcast_sub known candidate)).
Proof.
  simpl. now destruct (broadcast_sub known candidate).
Qed.

(** C5: the distance the verifier computes does not depend on which of the
    two vectors is the stored one: [face_distance] of [a] against [b] and
    of [b] against [a] give the same float (and fail alike when the two
    lengths cannot be subtracted). *)
Theorem face_distance_symmetric (a b : ndarray) :
  face_distance [a] b = face_distance [b] a.
Proof.
  rewrite !face_distance_one. now rewrite broadcast_sub_squares_sym.
Qed.

(** Read with Python's [==]: the two distances compare equal unless they
    are NaN, which compares equal to nothing. *)
Lemma face_distance_symmetric_eqb (a b : ndarray) (d : float) :
  face_distance [a] b = Some [d] ->
  PrimFloat.is_nan d = false ->
  exists d', face_distance [b] a = Some [d'] /\ PrimFloat.eqb d d' = true.
Proof.
  intros Hd Hnan. exists d. split.
  - rewrite <- Hd. rewrite !face_distance_one. now rewrite broadcast_sub_squares_sym.
  - unfold PrimFloat.is_nan in Hnan. now destruct (PrimFloat.eqb d d).
Qed.

(** C4: the verifier applied to a feature vector and itself gives the
    distance [0.0] and a match.  A feature vector is a vector of numbers:
    every component is finite, as the components of the extractor's
    encodings are by the extractor's contract, and the vectors
    [verify_face] compares are such encodings, fresh or read back from a
    row. *)
Theorem face_distance_identical (v : ndarray) :
  all_finite v = true ->
  face_distance [v] v = Some [PrimFloat.zero] /\
  compare_faces [v] v tolerance = Some [true].
Proof.
  intros Hfin.
  rewrite compare_faces_same_length, face_distance_same_length by reflexivity.
  rewrite euclidean_distance_self by assumption. split; reflexivity.
Qed.

Lemma face_distance_identical_witness :
  let v := [0.5%float; (-3.25)%float; 0%float; 0x1p+1000%float] in
  all_finite v = true /\
  face_distance [v] v = Some [PrimFloat.zero] /\
  compare_faces [v] v tolerance = Some [true].
Proof.
  split; [reflexivity|].
  apply (face_distance_identical [0.5%float; (-3.25)%float; 0%float; 0x1p+1000%float]).
  reflexivity.
Defined.

(** Finiteness is what the proof rests on: an array with a component that
    is NaN or an infinity, which is no feature vector, is at distance NaN
    from itself, and NaN is within no tolerance. *)
Lemma face_distance_identical_not_finite (v : ndarray) :
  all_finite v = false ->
  face_distance [v] v = Some [PrimFloat.nan] /\
  compare_faces [v] v tolerance = Some [false].
Proof.
  intros Hfin.
  rewrite compare_faces_same_length, face_distance_same_length by reflexivity.
  rewrite euclidean_distance_self_not_finite by assumption. split; reflexivity.
Qed.


(** ** verify-face *)

Section VerifyFace.

Variable L : Libraries.

(** json: a list of floats written by [dumps] is read back by [loads]. *)
Hypothesis json_roundtrip :
  forall v : ndarray, L.(json_loads) (L.(json_dumps) v) = Some v.

(** face_recognition: all encodings have one number of components (128 in
    the library's model). *)
Variable dimension : nat.

Hypothesis face_encodings_dimension :
  forall rgb encodings,
    L.(face_encodings) rgb = Some encodings ->
    Forall (fun e => length e = dimension) encodings.

Lemma get_face_encoding_from_base64_dimension base64_image encoding :
  get_face_encoding_from_base64 L base64_image = Some encoding ->
  length encoding = dimension.
Proof using face_encodings_dimension.
  destruct (last_item_split_comma base64_image) as [payload [Hlast _]].
  rewrite (get_face_encoding_from_base64_steps L _ _ Hlast).
  destruct (b64decode L payload) as [image_data|]; [|discriminate].
  destruct (imdecode L image_data) as [[img|]|]; try discriminate.
  destruct (cvtColor L img) as [rgb|]; [|discriminate].
  destruct (face_encodings L rgb) as [[|first rest]|] eqn:E; try discriminate.
  intros [= <-]. apply face_encodings_dimension in E. now inversion E.
Qed.

(** verify-face on a table where the user's row holds text that reads back
    as a vector of the candidate's length. *)
Lemma verify_face_found data db row stored candidate :
  fetchone (select_where_user_id data.(vf_userId) db) = Some row ->
  bind row.(face_encoding) L.(json_loads) = Some stored ->
  get_face_encoding_from_base64 L data.(vf_faceImage) = Some candidate ->
  length stored = length candidate ->
  verify_face L data db =
    (Ok {| verified := PrimFloat.leb (euclidean_distance stored candidate) tolerance;
           distance := euclidean_distance stored candidate |}, db).
Proof using Type.
  intros Hrow Hstored Hcand Hlen. unfold verify_face.
  rewrite fetchone_map, Hrow. cbn [option_map].
  rewrite Hstored, Hcand.
  now rewrite compare_faces_same_length, face_distance_same_length.
Qed.

(** C3: for a table the service reaches, a user with a row in it and a
    candidate image from which the extractor returns an encoding,
    verify-face answers 200; the text of the user's row reads back as a
    vector, the body's [distance] is the Euclidean distance between that
    stored vector and the candidate's, and [verified] is the outcome of
    [distance <= 0.5]. *)
Theorem verify_face_spec (rs : list request) (data : VerifyFaceRequest)
    (candidate : ndarray) :
  let db := serve L rs init_db in
  In data.(vf_userId) (user_ids db) ->
  get_face_encoding_from_base64 L data.(vf_faceImage) = Some candidate ->
  exists row stored,
    fetchone (select_where_user_id data.(vf_userId) db) = Some row /\
    bind row.(face_encoding) L.(json_loads) = Some stored /\
    verify_face L data db =
      (Ok {| verified := PrimFloat.leb (euclidean_distance stored candidate) 0.5;
             distance := euclidean_distance stored candidate |}, db).
Proof using json_roundtrip face_encodings_dimension.
  intros db Hin Hcand.
  destruct (fetchone_select_some _ _ Hin) as [row Hrow].
  assert (Hreg : registered_row L row).
  { pose proof (serve_registered_rows L rs) as Hall.
    rewrite Forall_forall in Hall. apply Hall.
    now apply fetchone_select_user_id in Hrow. }
  destruct Hreg as [img [stored [Hstored Htext]]].
  exists row, stored. split; [assumption|].
  assert (Hread : bind row.(face_encoding) L.(json_loads) = Some stored).
  { rewrite Htext. simpl. apply json_roundtrip. }
  split; [assumption|].
  apply verify_face_found with (row := row); try assumption.
  rewrite (get_face_encoding_from_base64_dimension _ _ Hstored).
  now rewrite (get_face_encoding_from_base64_dimension _ _ Hcand).
Qed.

End VerifyFace.

(** ** The stand-ins keep the libraries' contracts *)

Lemma read_write_pos p rest :
  TestDouble.read_pos (TestDouble.write_pos p ++ rest) = Some (p, rest).
Proof.
  induction p as [p IH|p IH|]; simpl; try reflexivity; now rewrite IH.
Qed.

Lemma read_write_Z z rest :
  TestDouble.read_Z (TestDouble.write_Z z ++ rest) = Some (z, rest).
Proof.
  destruct z as [|p|p]; simpl; try reflexivity; now rewrite read_write_pos.
Qed.

Lemma read_write_sign s : TestDouble.read_sign (TestDouble.write_sign s) = Some s.
Proof. now destruct s. Qed.

Lemma read_write_float x rest :
  TestDouble.read_float (TestDouble.write_float x ++ rest) = Some (x, rest).
Proof.
  unfold TestDouble.write_float.
  rewrite <- (SF2Prim_Prim2SF x) at 2.
  destruct (Prim2SF x) as [s|s| |s m e]; simpl.
  - now rewrite read_write_sign.
  - now rewrite read_write_sign.
  - reflexivity.
  - rewrite read_write_sign, string_app_assoc, read_write_pos, read_write_Z.
    reflexivity.
Qed.

Lemma read_write_floats v rest :
  TestDouble.read_floats (length v) (TestDouble.write_floats v ++ rest) = Some (v, rest).
Proof.
  induction v as [|x v IH]; simpl; [reflexivity|].
  now rewrite string_app_assoc, read_write_float, IH.
Qed.

Lemma read_write_tally n rest :
  TestDouble.read_tally (TestDouble.write_tally n ++ rest) = Some (n, rest).
Proof.
  induction n as [|n IH]; simpl; [reflexivity | now rewrite IH].
Qed.

Lemma string_app_empty (s : string) : (s ++ "")%string = s.
Proof. induction s as [|c s IH]; simpl; [reflexivity | now rewrite IH]. Qed.

Lemma fake_json_roundtrip (v : ndarray) :
  TestDouble.libs.(json_loads) (TestDouble.libs.(json_dumps) v) = Some v.
Proof.
  simpl. unfold TestDouble.fake_json_loads, TestDouble.fake_json_dumps.
  rewrite read_write_tally.
  rewrite <- (string_app_empty (TestDouble.write_floats v)).
  now rewrite read_write_floats.
Qed.

Lemma fake_face_encodings_dimension rgb encodings :
  TestDouble.libs.(face_encodings) rgb = Some encodings ->
  Forall (fun e => length e = 128) encodings.
Proof.
  intros H. change (TestDouble.fake_face_encodings rgb = Some encodings) in H.
  unfold TestDouble.fake_face_encodings in H. injection H as <-.
  apply Forall_forall. intros e He. apply in_map_iff in He.
  destruct He as [b [<- _]]. reflexivity.
Qed.


(** After alice registered with one image, verify-face with another image
    answers with the distance between the two encodings. *)
Lemma verify_face_spec_witness :
  let db := serve TestDouble.libs
              [RegisterUser TestDouble.salt1 TestDouble.alice] init_db in
  let data := {| vf_userId := "alice"; vf_faceImage := "zB00" |} in
  user_ids db = ["alice"] /\
  exists row stored,
    fetchone (select_where_user_id "alice" db) = Some row /\
    bind row.(face_encoding) TestDouble.libs.(json_loads) = Some stored /\
    verify_face TestDouble.libs data db =
      (Ok {| verified := PrimFloat.leb
                           (euclidean_distance stored
                              (repeat (TestDouble.float_of_byte Byte.x7a) 128)) 0.5;
             distance := euclidean_distance stored
                           (repeat (TestDouble.float_of_byte Byte.x7a) 128) |}, db).
Proof.
  split; [reflexivity|].
  apply (verify_face_spec TestDouble.libs fake_json_roundtrip 128
           fake_face_encodings_dimension
           [RegisterUser TestDouble.salt1 TestDouble.alice]
           {| vf_userId := "alice"; vf_faceImage := "zB00" |}).
  - simpl. now left.
  - reflexivity.
Defined.

(** ** A registered user's row stays the one found *)

Lemma registered_row_found (L : Libraries) salt reg db body db1 rs :
  register_user L salt reg db = (Ok body, db1) ->
  exists encoding,
    get_face_encoding_from_base64 L reg.(reg_faceImage) = Some encoding /\
    fetchone (select_where_user_id reg.(reg_userId) (serve L rs db1))
      = Some (new_row L salt reg encoding db).
Proof.
  intros H. apply register_user_ok_inv in H. destruct H as [Hnew [enc [Hface ->]]].
  exists enc. split; [assumption|].
  destruct (serve_extends L rs (db ++ [new_row L salt reg enc db])) as [more ->].
  apply fetchone_select_app. now apply fetchone_select_snoc_new.
Qed.


(** ** verify-password *)

(** bcrypt reads at most the first 72 bytes of a password.  A stand-in for
    the library with that rule: the hash is those bytes, and a password
    checks when its first 72 bytes are the hash. *)
Module Bcrypt72.

Definition hashpw72 (password salt : bytes) : bytes := firstn 72 password.

Definition checkpw72 (password hashed_password : bytes) : bool :=
  if list_eq_dec Byte.byte_eq_dec (firstn 72 password) hashed_password
  then true else false.

Definition libs : Libraries := {|
  image := bytes;
  b64decode := TestDouble.fake_b64decode;
  imdecode := TestDouble.fake_imdecode;
  cvtColor := TestDouble.fake_cvtColor;
  face_encodings := TestDouble.fake_face_encodings;
  hashpw := hashpw72;
  checkpw := checkpw72;
  json_dumps := TestDouble.fake_json_dumps;
  json_loads := TestDouble.fake_json_loads
|}.



End Bcrypt72.


Section VerifyPassword.

Variable L : Libraries.

(** bcrypt: a password checks against its own hash, under any salt. *)
Hypothesis checkpw_hashpw :
  forall password salt, L.(checkpw) password (L.(hashpw) password salt) = true.




End VerifyPassword.




(** ** Concurrent registrations *)

(** A worker left alone runs [register_user]. *)
Lemma worker_alone_register_user (L : Libraries) salt data db :
  let (w1, db1) := worker_step L (start salt data) db in
  let (w2, db2) := worker_step L w1 db1 in
  w2.(w_at) = Done (fst (register_user L salt data db)) /\
  db2 = snd (register_user L salt data db).
Proof.
  unfold worker_step, register_user, start. cbn [w_at w_data w_salt move].
  destruct (fetchone (select_where_user_id (reg_userId data) db)); [now split|].
  destruct (get_face_encoding_from_base64 L (reg_faceImage data)); [|now split].
  cbn [w_at w_data w_salt move].
  destruct (insert_user _ _ _ db); now split.
Qed.

(** A worker whose SELECT runs when the id has a row answers 409. *)
Lemma worker_step_select_conflict (L : Libraries) w db :
  w.(w_at) = AtSelect ->
  In w.(w_data).(reg_userId) (user_ids db) ->
  worker_step L w db = (move w (Done (HTTPException 409 "User already exists")), db).
Proof.
  intros Hat Hin. unfold worker_step. rewrite Hat.
  destruct (fetchone_select_some _ _ Hin) as [r ->]. reflexivity.
Qed.

Lemma count_rows_snoc uid db r :
  count_rows uid (db ++ [r]) =
    count_rows uid db + (if String.eqb r.(user_id) uid then 1 else 0).
Proof.
  unfold count_rows. rewrite user_ids_snoc, count_occ_app. simpl.
  destruct (string_dec (user_id r) uid) as [E|E].
  - apply String.eqb_eq in E. now rewrite E.
  - apply String.eqb_neq in E. now rewrite E.
Qed.

(** One statement keeps the ids distinct, and adds a row of [uid] exactly
    when its worker turns into one that registered [uid]. *)
Lemma worker_step_accounts (L : Libraries) w db w' db' uid :
  worker_step L w db = (w', db') ->
  NoDup (user_ids db) ->
  NoDup (user_ids db') /\
  count_rows uid db' + nat_of_bool (succeeded uid w)
    = count_rows uid db + nat_of_bool (succeeded uid w').
Proof.
  unfold worker_step, succeeded. intros Hstep Hnd.
  destruct (w_at w) as [|ph fj|r] eqn:Hat.
  - destruct (fetchone _).
    + injection Hstep as <- <-. simpl. rewrite !andb_false_r. now split.
    + destruct (get_face_encoding_from_base64 _ _);
        injection Hstep as <- <-; simpl; rewrite !andb_false_r; now split.
  - destruct (insert_user _ ph (Some fj) db) as [db1|] eqn:Hins.
    + injection Hstep as <- <-. split; [eapply insert_user_NoDup; eassumption|].
      unfold insert_user in Hins. destruct (existsb _ db); [discriminate|].
      injection Hins as <-. rewrite count_rows_snoc. simpl.
      rewrite !andb_false_r, andb_true_r. simpl.
      destruct (String.eqb _ uid); simpl; lia.
    + injection Hstep as <- <-. simpl. rewrite !andb_false_r. now split.
  - injection Hstep as <- <-. rewrite Hat. now split.
Qed.

Lemma count_succeeded_replace_nth uid i w w' ws :
  nth_error ws i = Some w ->
  count_succeeded uid (replace_nth i w' ws) + nat_of_bool (succeeded uid w)
    = count_succeeded uid ws + nat_of_bool (succeeded uid w').
Proof.
  unfold count_succeeded. revert i.
  induction ws as [|w0 ws IH]; intros [|i] H; simpl in *; try discriminate.
  - injection H as ->.
    destruct (succeeded uid w), (succeeded uid w'); simpl; lia.
  - specialize (IH i H). destruct (succeeded uid w0); simpl; lia.
Qed.

(** Along every schedule the ids stay distinct, and the rows of [uid] that
    came in are as many as the workers that came to register [uid]. *)
Lemma run_schedule_accounts (L : Libraries) schedule uid :
  forall ws db ws' db',
    run_schedule L schedule ws db = (ws', db') ->
    NoDup (user_ids db) ->
    NoDup (user_ids db') /\
    count_rows uid db' + count_succeeded uid ws
      = count_rows uid db + count_succeeded uid ws'.
Proof.
  induction schedule as [|i schedule IH]; intros ws db ws' db' Hrun Hnd; simpl in Hrun.
  - injection Hrun as <- <-. now split.
  - destruct (nth_error ws i) as [w|] eqn:Hw; [|now apply IH].
    destruct (worker_step L w db) as [w1 db1] eqn:Hstep.
    destruct (worker_step_accounts L w db w1 db1 uid Hstep Hnd) as [Hnd1 Hrows].
    destruct (IH _ _ _ _ Hrun Hnd1) as [Hnd' Hrest]. split; [assumption|].
    pose proof (count_succeeded_replace_nth uid i w w1 ws Hw). lia.
Qed.

Lemma count_succeeded_fresh uid ws :
  Forall (fun w => w.(w_at) = AtSelect) ws -> count_succeeded uid ws = 0.
Proof.
  unfold count_succeeded. induction 1 as [|w ws Hw _ IH]; [reflexivity|].
  simpl. unfold succeeded at 1. rewrite Hw, andb_false_r. exact IH.
Qed.

Lemma count_rows_NoDup uid db : NoDup (user_ids db) -> count_rows uid db <= 1.
Proof. intros Hnd. unfold count_rows. now apply NoDup_count_occ. Qed.

Lemma count_rows_In uid db : In uid (user_ids db) -> 1 <= count_rows uid db.
Proof. intros Hin. unfold count_rows. now apply count_occ_In. Qed.

(** C9, as amended: when workers with fresh register-user requests run
    concurrently, their statements on the table interleaved in any order,
    the user ids of the table stay distinct; for every id at most one
    request is answered 200, and none when the id had a row before; the
    rows that come in are as many as the requests answered 200, so a
    request that fails inserts nothing; and a request whose SELECT runs
    when the id has a row, as after the winner's INSERT, answers 409. *)
Theorem concurrent_registrations (L : Libraries) (schedule : list nat)
    (ws : list worker) (db : users) :
  NoDup (user_ids db) ->
  Forall (fun w => w.(w_at) = AtSelect) ws ->
  NoDup (user_ids (snd (run_schedule L schedule ws db))) /\
  (forall uid, count_succeeded uid (fst (run_schedule L schedule ws db)) <= 1) /\
  (forall uid, In uid (user_ids db) ->
               count_succeeded uid (fst (run_schedule L schedule ws db)) = 0) /\
  (forall uid, count_rows uid (snd (run_schedule L schedule ws db))
               = count_rows uid db
                 + count_succeeded uid (fst (run_schedule L schedule ws db))) /\
  (forall w db0,
      w.(w_at) = AtSelect ->
      In w.(w_data).(reg_userId) (user_ids db0) ->
      worker_step L w db0
        = (move w (Done (HTTPException 409 "User already exists")), db0)).
Proof.
  intros Hnd Hfresh.
  destruct (run_schedule L schedule ws db) as [ws' db'] eqn:Hrun. simpl.
  assert (Hacc : forall uid,
             NoDup (user_ids db') /\
             count_rows uid db' = count_rows uid db + count_succeeded uid ws').
  { intros uid.
    destruct (run_schedule_accounts L schedule uid _ _ _ _ Hrun Hnd) as [Hnd' Hcount].
    rewrite (count_succeeded_fresh uid ws Hfresh) in Hcount. split; [assumption | lia]. }
  split; [exact (proj1 (Hacc ""))|]. split; [|split; [|split]].
  - intros uid. destruct (Hacc uid) as [Hnd' Hcount].
    pose proof (count_rows_NoDup uid db' Hnd'). lia.
  - intros uid Hin. destruct (Hacc uid) as [Hnd' Hcount].
    pose proof (count_rows_NoDup uid db' Hnd').
    pose proof (count_rows_In uid db Hin). lia.
  - intros uid. exact (proj2 (Hacc uid)).
  - intros w db0. apply worker_step_select_conflict.
Qed.

(** Two workers register alice; each runs its SELECT before the other's
    INSERT. *)
Lemma concurrent_registrations_witness :
  let ws := [start TestDouble.salt1 TestDouble.alice;
             start TestDouble.salt2 TestDouble.alice_again] in
  let run := run_schedule TestDouble.libs [0; 1; 0; 1] ws init_db in
  user_ids (snd run) = ["alice"] /\
  NoDup (user_ids (snd run)) /\
  (forall uid, count_succeeded uid (fst run) <= 1) /\
  (forall uid, In uid (user_ids init_db) -> count_succeeded uid (fst run) = 0) /\
  (forall uid, count_rows uid (snd run)
               = count_rows uid init_db + count_succeeded uid (fst run)) /\
  (forall w db0,
      w.(w_at) = AtSelect ->
      In w.(w_data).(reg_userId) (user_ids db0) ->
      worker_step TestDouble.libs w db0
        = (move w (Done (HTTPException 409 "User already exists")), db0)).
Proof.
  split; [reflexivity|].
  apply (concurrent_registrations TestDouble.libs [0; 1; 0; 1]
           [start TestDouble.salt1 TestDouble.alice;
            start TestDouble.salt2 TestDouble.alice_again] init_db).
  - constructor.
  - repeat constructor.
Defined.

(** C9, as stated, fails: when both workers run their SELECT before either
    INSERT, the second INSERT breaks the UNIQUE constraint and its worker
    ends with an IntegrityError that no handler catches, not with 409. *)
Lemma concurrent_loser_not_conflict :
  map w_at (fst (run_schedule TestDouble.libs [0; 1; 0; 1]
                   [start TestDouble.salt1 TestDouble.alice;
                    start TestDouble.salt2 TestDouble.alice_again] init_db))
    = [Done (Ok {| success := true; message := "User registered" |});
       Done (Unhandled IntegrityError)] /\
  ~ registrations_atomic TestDouble.libs.
Proof.
  split; [reflexivity|].
  intros Hatomic.
  specialize (Hatomic [0; 1; 0; 1]
                [start TestDouble.salt1 TestDouble.alice;
                 start TestDouble.salt2 TestDouble.alice_again] "alice").
  assert (Hfresh : Forall
            (fun w => w.(w_at) = AtSelect /\ w.(w_data).(reg_userId) = "alice" /\
                      get_face_encoding_from_base64 TestDouble.libs
                        w.(w_data).(reg_faceImage) <> None)
            [start TestDouble.salt1 TestDouble.alice;
             start TestDouble.salt2 TestDouble.alice_again]).
  { repeat constructor; discriminate. }
  specialize (Hatomic Hfresh).
  assert (Hdone : Forall (fun w => finished w = true)
            (fst (run_schedule TestDouble.libs [0; 1; 0; 1]
                    [start TestDouble.salt1 TestDouble.alice;
                     start TestDouble.salt2 TestDouble.alice_again] init_db))).
  { repeat constructor. }
  specialize (Hatomic Hdone).
  rewrite Forall_forall in Hatomic.
  specialize (Hatomic (move (start TestDouble.salt2 TestDouble.alice_again)
                            (Done (Unhandled IntegrityError)))).
  assert (Hin : In (move (start TestDouble.salt2 TestDouble.alice_again)
                         (Done (Unhandled IntegrityError)))
                   (fst (run_schedule TestDouble.libs [0; 1; 0; 1]
                           [start TestDouble.salt1 TestDouble.alice;
                            start TestDouble.salt2 TestDouble.alice_again] init_db))).
  { right. left. reflexivity. }
  specialize (Hatomic Hin eq_refl). discriminate.
Qed.

(** ** The service run on the stand-ins *)

Example split_data_uri :
  split comma "data:image/png;base64,A000" = ["data:image/png;base64"; "A000"] /\
  last_item (split comma "data:image/png;base64,A000") = Some "A000" /\
  last_item (split comma "A000") = Some "A000" /\
  last_item (split comma "a,b,") = Some "".
Proof. repeat split. Qed.

(** The tolerance is inclusive: a distance of exactly 0.5 is a match, the
    next float above is none. *)
Example tolerance_inclusive :
  face_distance [[0.5%float]] [0%float] = Some [0.5%float] /\
  compare_faces [[0.5%float]] [0%float] tolerance = Some [true] /\
  compare_faces [[PrimFloat.next_up 0.5%float]] [0%float] tolerance = Some [false].
Proof. repeat split. Qed.

(** A request without a face is refused with 400 and leaves no row. *)
Example register_user_faceless :
  register_user TestDouble.libs TestDouble.salt1 TestDouble.faceless init_db
    = (HTTPException 400 "Face not detected", init_db).
Proof. reflexivity. Qed.

(** alice registers with password p1; her password checks, her own image
    verifies at distance 0.0, and an unrelated face does not verify. *)
Example end_to_end :
  let db := snd (register_user TestDouble.libs TestDouble.salt1 TestDouble.alice init_db) in
  fst (verify_password TestDouble.libs {| vp_userId := "alice"; vp_password := "p1" |} db)
    = Ok {| valid := true |} /\
  fst (verify_face TestDouble.libs
         {| vf_userId := "alice"; vf_faceImage := "data:image/png;base64,A000" |} db)
    = Ok {| verified := true; distance := 0%float |} /\
  (exists d,
      fst (verify_face TestDouble.libs
             {| vf_userId := "alice"; vf_faceImage := "data:image/png;base64,z000" |} db)
        = Ok {| verified := false; distance := d |} /\
      PrimFloat.ltb 0.5%float d = true) /\
  fst (check_user {| cu_userId := "alice" |} db) = Ok {| exists_ := true |} /\
  fst (check_user {| cu_userId := "alice" |} init_db) = Ok {| exists_ := false |}.
Proof.
  split; [reflexivity|]. split; [vm_compute; reflexivity|].
  split; [|split; reflexivity].
  eexists. split; vm_compute; reflexivity.
Qed.

(** * Further properties of the handlers *)

(** ** Restarting the service *)

(** The database file when the service starts: [None] when it holds no
    [users] table yet. *)
Definition database := option users.

(** [init_db]: CREATE TABLE IF NOT EXISTS creates the empty table in a file
    without one and leaves an existing table as it is; the result is the
    table the handlers then work on. *)
Definition init_db_on (file : database) : users :=
  match file with
  | None => []
  | Some db => db
  end.

(** One run of the service: [init_db] at start-up, then the requests. *)
Definition run_service (L : Libraries) (file : database) (rs : list request) : users :=
  serve L rs (init_db_on file).

(** ** The answers of register-user *)


(** ** Rows are written once *)

Lemma handle_appends (L : Libraries) r db :
  exists more,
    handle L r db = db ++ more /\
    Forall (fun row => registered_row L row /\ ~ In row.(user_id) (user_ids db)) more.
Proof.
  destruct (handle_extends L r db) as [-> | [salt [data [enc [Hnew [Hface ->]]]]]].
  - exists []. now rewrite app_nil_r.
  - exists [new_row L salt data enc db]. split; [reflexivity|].
    constructor; [|constructor]. split; [|exact Hnew].
    now exists data.(reg_faceImage), enc.
Qed.

(** X2: no handler updates or deletes: after any sequence of requests the
    table is the table before followed by new rows, each written by a
    registration (its encoding column holds the text of an extracted
    vector) for a user id the table before did not hold. *)
Theorem serve_append_only (L : Libraries) (rs : list request) (db : users) :
  exists more,
    serve L rs db = db ++ more /\
    Forall (fun row => registered_row L row /\ ~ In row.(user_id) (user_ids db)) more.
Proof.
  revert db. induction rs as [|r rs IH]; intros db.
  - exists []. now rewrite app_nil_r.
  - rewrite serve_cons.
    destruct (handle_appends L r db) as [first [Hfirst Hrows1]].
    destruct (IH (handle L r db)) as [rest [Hrest Hrows2]].
    exists (first ++ rest). rewrite Hrest, Hfirst, app_assoc. split; [reflexivity|].
    apply Forall_app. split; [assumption|].
    eapply Forall_impl; [|exact Hrows2].
    intros row [Hreg Hnew]. split; [assumption|].
    intros Hin. apply Hnew. rewrite Hfirst. unfold user_ids. rewrite map_app.
    apply in_or_app. now left.
Qed.

(** X3: the user ids of the table stay distinct under every sequence of
    requests: from the empty table, and from any table whose ids are
    distinct. *)
Theorem serve_unique_user_ids (L : Libraries) :
  (forall rs, NoDup (user_ids (serve L rs init_db))) /\
  (forall rs db, NoDup (user_ids db) -> NoDup (user_ids (serve L rs db))).
Proof.
  split.
  - intros rs. apply serve_NoDup. constructor.
  - intros rs db. apply serve_NoDup.
Qed.

(** ** Row keys *)

Lemma max_keys n : fold_right Z.max 0%Z (map Z.of_nat (seq 1 n)) = Z.of_nat n.
Proof.
  induction n as [|n IH]; [reflexivity|].
  rewrite seq_S, map_app, fold_right_app. simpl.
  assert (Hgen : forall l acc, (0 <= acc)%Z ->
             (forall x, In x l -> (x <= acc)%Z) ->
             fold_right Z.max acc l = acc).
  { induction l as [|x l IHl]; intros acc Hacc Hle; simpl; [reflexivity|].
    rewrite IHl; [|assumption|intros y Hy; apply Hle; now right].
    apply Z.max_r. apply Hle. now left. }
  rewrite Hgen; try lia.
  intros x Hx. apply in_map_iff in Hx. destruct Hx as [k [<- Hk]].
  apply in_seq in Hk. lia.
Qed.

Lemma handle_keys (L : Libraries) r db :
  map id db = map Z.of_nat (seq 1 (length db)) ->
  map id (handle L r db) = map Z.of_nat (seq 1 (length (handle L r db))).
Proof.
  intros Hkeys.
  destruct (handle_extends L r db) as [-> | [salt [data [enc [_ [_ ->]]]]]];
    [assumption|].
  rewrite length_app, map_app. simpl. rewrite Nat.add_1_r, seq_S, map_app, <- Hkeys.
  simpl. unfold next_id. rewrite Hkeys, max_keys. do 2 f_equal. lia.
Qed.

(** X4: the keys the table gives its rows count up from 1 in insertion
    order: in every table the service reaches from the empty one, the
    [id] column reads 1, 2, ..., n. *)
Theorem serve_row_keys (L : Libraries) (rs : list request) :
  map id (serve L rs init_db)
  = map Z.of_nat (seq 1 (length (serve L rs init_db))).
Proof.
  assert (Hgen : forall db, map id db = map Z.of_nat (seq 1 (length db)) ->
             map id (serve L rs db) = map Z.of_nat (seq 1 (length (serve L rs db)))).
  { induction rs as [|r rs IH]; intros db Hdb; [assumption|].
    rewrite serve_cons. apply IH. now apply handle_keys. }
  now apply Hgen.
Qed.

(** ** Who exists *)





(** ** The answers of verify-face *)

Lemma face_distance_single known candidate :
  face_distance [known] candidate = None \/
  exists d, face_distance [known] candidate = Some [d].
Proof.
  rewrite face_distance_one.
  destruct (broadcast_sub known candidate); simpl; [right; eauto | now left].
Qed.

(** What a 200 answer of verify-face tells about the request and the table. *)
Lemma verify_face_ok_inv (L : Libraries) (data : VerifyFaceRequest)
    (db db' : users) (body : VerifyFaceBody) :
  verify_face L data db = (Ok body, db') ->
  db' = db /\
  body.(verified) = PrimFloat.leb body.(distance) 0.5 /\
  exists row stored candidate,
    fetchone (select_where_user_id data.(vf_userId) db) = Some row /\
    bind row.(face_encoding) L.(json_loads) = Some stored /\
    get_face_encoding_from_base64 L data.(vf_faceImage) = Some candidate /\
    face_distance [stored] candidate = Some [body.(distance)].
Proof.
  unfold verify_face. rewrite fetchone_map.
  destruct (fetchone (select_where_user_id (vf_userId data) db)) as [row|] eqn:Hrow;
    cbn [option_map]; [|discriminate].
  destruct (bind (face_encoding row) (json_loads L)) as [stored|] eqn:Hstored;
    [|discriminate].
  destruct (get_face_encoding_from_base64 L (vf_faceImage data)) as [candidate|]
    eqn:Hcand; [|discriminate].
  unfold compare_faces.
  destruct (face_distance_single stored candidate) as [Hnone | [d Hd]];
    [rewrite Hnone; discriminate|].
  rewrite Hd. cbn [option_map map].
  intros [= <- <-]. split; [reflexivity|]. split; [reflexivity|].
  now exists row, stored, candidate.
Qed.

(** X6: whenever verify-face answers 200, the table is unchanged, the
    user's row held text that read back as a vector, the extractor returned
    an encoding for the candidate image, the body's [distance] is the
    distance of the two, and [verified] is [distance <= 0.5]: the two
    fields of a body never disagree, on any table. *)
Theorem verify_face_body_consistent (L : Libraries) (data : VerifyFaceRequest)
    (db db' : users) (body : VerifyFaceBody) :
  verify_face L data db = (Ok body, db') ->
  db' = db /\
  body.(verified) = PrimFloat.leb body.(distance) 0.5 /\
  exists row stored candidate,
    fetchone (select_where_user_id data.(vf_userId) db) = Some row /\
    bind row.(face_encoding) L.(json_loads) = Some stored /\
    get_face_encoding_from_base64 L data.(vf_faceImage) = Some candidate /\
    face_distance [stored] candidate = Some [body.(distance)].
Proof. apply verify_face_ok_inv. Qed.

Lemma verify_face_body_consistent_witness :
  let db := snd (register_user TestDouble.libs TestDouble.salt1 TestDouble.alice init_db) in
  let body := {| verified := true; distance := 0x1.6a09e667f3bcdp-5%float |} in
  db = db /\
  body.(verified) = PrimFloat.leb body.(distance) 0.5 /\
  exists row stored candidate,
    fetchone (select_where_user_id "alice" db) = Some row /\
    bind row.(face_encoding) TestDouble.libs.(json_loads) = Some stored /\
    get_face_encoding_from_base64 TestDouble.libs "B000" = Some candidate /\
    face_distance [stored] candidate = Some [body.(distance)].
Proof.
  apply (verify_face_body_consistent TestDouble.libs
           {| vf_userId := "alice"; vf_faceImage := "B000" |}).
  vm_compute. reflexivity.
Defined.

Section VerifyFaceAnswers.

Variable L : Libraries.

(** json: a list of floats written by [dumps] is read back by [loads]. *)
Hypothesis json_roundtrip :
  forall v : ndarray, L.(json_loads) (L.(json_dumps) v) = Some v.

(** face_recognition: all encodings have one number of components. *)
Variable dimension : nat.

Hypothesis face_encodings_dimension :
  forall rgb encodings,
    L.(face_encodings) rgb = Some encodings ->
    Forall (fun e => length e = dimension) encodings.


(** Every encoding the extractor returns is made of finite numbers. *)
Hypothesis face_encodings_finite :
  forall rgb encodings,
    L.(face_encodings) rgb = Some encodings ->
    Forall (fun e => all_finite e = true) encodings.

Lemma get_face_encoding_from_base64_finite base64_image encoding :
  get_face_encoding_from_base64 L base64_image = Some encoding ->
  all_finite encoding = true.
Proof using face_encodings_finite.
  destruct (last_item_split_comma base64_image) as [payload [Hlast _]].
  rewrite (get_face_encoding_from_base64_steps L _ _ Hlast).
  destruct (b64decode L payload) as [image_data|]; [|discriminate].
  destruct (imdecode L image_data) as [[img|]|]; try discriminate.
  destruct (cvtColor L img) as [rgb|]; [|discriminate].
  destruct (face_encodings L rgb) as [[|first rest]|] eqn:E; try discriminate.
  intros [= <-]. apply face_encodings_finite in E. now inversion E.
Qed.

(** X8: a user who registered with an image verifies with that image:
    after a successful registration and any later requests, verify-face
    with the registration's faceImage answers [verified: true] at distance
    [0.0]. *)
Theorem register_then_verify_face salt reg db body db1 rs :
  register_user L salt reg db = (Ok body, db1) ->
  verify_face L {| vf_userId := reg.(reg_userId); vf_faceImage := reg.(reg_faceImage) |}
              (serve L rs db1)
  = (Ok {| verified := true; distance := 0%float |}, serve L rs db1).
Proof using json_roundtrip face_encodings_finite.
  intros Hreg.
  destruct (registered_row_found L salt reg db body db1 rs Hreg) as [enc [Hface Hrow]].
  pose proof (verify_face_found L
                {| vf_userId := reg.(reg_userId); vf_faceImage := reg.(reg_faceImage) |}
                (serve L rs db1) (new_row L salt reg enc db) enc enc Hrow) as Hfound.
  cbn [vf_faceImage new_row face_encoding bind] in Hfound.
  rewrite Hfound; [|apply json_roundtrip|assumption|reflexivity].
  now rewrite euclidean_distance_self
    by exact (get_face_encoding_from_base64_finite _ _ Hface).
Qed.

End VerifyFaceAnswers.

Lemma float_of_byte_finite b : PrimFloat.is_finite (TestDouble.float_of_byte b) = true.
Proof. destruct b; reflexivity. Qed.

Lemma fake_face_encodings_finite rgb encodings :
  TestDouble.libs.(face_encodings) rgb = Some encodings ->
  Forall (fun e => all_finite e = true) encodings.
Proof.
  intros H. change (TestDouble.fake_face_encodings rgb = Some encodings) in H.
  unfold TestDouble.fake_face_encodings in H. injection H as <-.
  apply Forall_forall. intros e He. apply in_map_iff in He.
  destruct He as [b [<- _]]. unfold all_finite. apply forallb_forall.
  intros x Hx. apply (repeat_spec 128 (TestDouble.float_of_byte b)) in Hx.
  subst x. apply float_of_byte_finite.
Qed.


Lemma register_then_verify_face_witness :
  let db1 := snd (register_user TestDouble.libs TestDouble.salt1 TestDouble.alice init_db) in
  let db2 := serve TestDouble.libs
               [RegisterUser TestDouble.salt2 TestDouble.alice_again] db1 in
  verify_face TestDouble.libs
    {| vf_userId := "alice"; vf_faceImage := "data:image/png;base64,A000" |} db2
  = (Ok {| verified := true; distance := 0%float |}, db2).
Proof.
  apply (register_then_verify_face TestDouble.libs fake_json_roundtrip
           fake_face_encodings_finite
           TestDouble.salt1 TestDouble.alice init_db
           {| success := true; message := "User registered" |} _
           [RegisterUser TestDouble.salt2 TestDouble.alice_again]).
  reflexivity.
Defined.

(** ** One user's registration and the others *)

Lemma select_where_user_id_snoc_other uid db r :
  r.(user_id) <> uid ->
  select_where_user_id uid (db ++ [r]) = select_where_user_id uid db.
Proof.
  intros Hother. unfold select_where_user_id. rewrite filter_app. simpl.
  apply String.eqb_neq in Hother. rewrite Hother. apply app_nil_r.
Qed.

Lemma register_user_keeps_lookup (L : Libraries) salt reg db uid :
  uid <> reg.(reg_userId) \/ In uid (user_ids db) ->
  fetchone (select_where_user_id uid (snd (register_user L salt reg db)))
  = fetchone (select_where_user_id uid db).
Proof.
  intros Hcase.
  destruct (register_user_outcome L salt reg db) as [Hin|Hnew Hface|enc Hnew Hface];
    simpl; try reflexivity.
  destruct Hcase as [Hother | Hin].
  - rewrite select_where_user_id_snoc_other; [reflexivity|].
    simpl. congruence.
  - destruct (fetchone_select_some _ _ Hin) as [r Hr].
    rewrite Hr. now apply fetchone_select_app.
Qed.

(** X9: a registration changes nothing for anyone else.  After a
    register-user request, successful or not, verify-password, verify-face
    and check-user give the answers they gave before for every user id
    other than the request's, and for the request's id too when it had a
    row already. *)
Theorem register_user_isolated (L : Libraries) (salt : bytes)
    (reg : RegisterUserRequest) (db : users) (uid : string) :
  uid <> reg.(reg_userId) \/ In uid (user_ids db) ->
  let db' := snd (register_user L salt reg db) in
  (forall password,
      fst (verify_password L {| vp_userId := uid; vp_password := password |} db')
      = fst (verify_password L {| vp_userId := uid; vp_password := password |} db)) /\
  (forall faceImage,
      fst (verify_face L {| vf_userId := uid; vf_faceImage := faceImage |} db')
      = fst (verify_face L {| vf_userId := uid; vf_faceImage := faceImage |} db)) /\
  fst (check_user {| cu_userId := uid |} db')
  = fst (check_user {| cu_userId := uid |} db).
Proof.
  intros Hcase db'.
  pose proof (register_user_keeps_lookup L salt reg db uid Hcase) as Hsame.
  fold db' in Hsame.
  split; [|split].
  - intros password. unfold verify_password. cbn [vp_userId vp_password].
    rewrite !fetchone_map, Hsame.
    now destruct (fetchone (select_where_user_id uid db)).
  - intros faceImage. unfold verify_face. cbn [vf_userId vf_faceImage].
    rewrite !fetchone_map, Hsame.
    destruct (fetchone (select_where_user_id uid db)) as [row|]; [|reflexivity].
    cbn [option_map].
    destruct (bind (face_encoding row) (json_loads L)); [|reflexivity].
    destruct (get_face_encoding_from_base64 L faceImage); [|reflexivity].
    destruct (compare_faces _ _ _) as [[|? ?]|]; try reflexivity.
    destruct (face_distance _ _) as [[|? ?]|]; reflexivity.
  - unfold check_user. cbn [cu_userId]. now rewrite Hsame.
Qed.

(** bob's registration leaves alice's answers as they were. *)
Lemma register_user_isolated_witness :
  let db := snd (register_user TestDouble.libs TestDouble.salt1 TestDouble.alice init_db) in
  let bob := {| reg_userId := "bob"; reg_password := "p3"; reg_faceImage := "B000" |} in
  let db' := snd (register_user TestDouble.libs TestDouble.salt2 bob db) in
  user_ids db' = ["alice"; "bob"] /\
  (forall password,
      fst (verify_password TestDouble.libs
             {| vp_userId := "alice"; vp_password := password |} db')
      = fst (verify_password TestDouble.libs
               {| vp_userId := "alice"; vp_password := password |} db)) /\
  (forall faceImage,
      fst (verify_face TestDouble.libs
             {| vf_userId := "alice"; vf_faceImage := faceImage |} db')
      = fst (verify_face TestDouble.libs
               {| vf_userId := "alice"; vf_faceImage := faceImage |} db)) /\
  fst (check_user {| cu_userId := "alice" |} db')
  = fst (check_user {| cu_userId := "alice" |} db).
Proof.
  split; [reflexivity|].
  apply (register_user_isolated TestDouble.libs TestDouble.salt2
           {| reg_userId := "bob"; reg_password := "p3"; reg_faceImage := "B000" |}
           (snd (register_user TestDouble.libs TestDouble.salt1 TestDouble.alice init_db))
           "alice").
  left. discriminate.
Defined.

(** ** The data-URI prefix *)

Lemma last_item_split_payload before payload :
  free_of comma payload = true ->
  last_item (split comma (before ++ String comma payload)%string) = Some payload /\
  last_item (split comma payload) = Some payload.
Proof.
  intros Hfree. split.
  - destruct (last_item_split_comma (before ++ String comma payload)%string)
      as [p [Hlast Hp]].
    rewrite Hlast. f_equal. apply (after_last_comma_unique _ _ _ Hp).
    split; [assumption|]. right. now exists before.
  - destruct (last_item_split_comma payload) as [p [Hlast Hp]].
    rewrite Hlast. f_equal. apply (after_last_comma_unique _ _ _ Hp).
    split; [assumption|]. now left.
Qed.

(** X10: what stands before the last comma of faceImage has no influence
    on the extractor: a payload sent behind any prefix (a data-URI header
    of any MIME type, or anything else) gives the result the bare payload
    gives. *)
Theorem get_face_encoding_from_base64_prefix (L : Libraries)
    (before payload : string) :
  free_of comma payload = true ->
  get_face_encoding_from_base64 L (before ++ String comma payload)%string
  = get_face_encoding_from_base64 L payload.
Proof.
  intros Hfree.
  destruct (last_item_split_payload before payload Hfree) as [Hwith Hbare].
  rewrite (get_face_encoding_from_base64_steps L _ _ Hwith).
  now rewrite (get_face_encoding_from_base64_steps L _ _ Hbare).
Qed.

Lemma get_face_encoding_from_base64_prefix_witness :
  free_of comma "A000" = true /\
  get_face_encoding_from_base64 TestDouble.libs "data:image/png;base64,A000"
  = get_face_encoding_from_base64 TestDouble.libs "A000".
Proof.
  split; [reflexivity|].
  apply (get_face_encoding_from_base64_prefix TestDouble.libs
           "data:image/png;base64" "A000").
  reflexivity.
Defined.

(** ** Restarts *)

Lemma serve_app (L : Libraries) rs1 rs2 db :
  serve L (rs1 ++ rs2) db = serve L rs2 (serve L rs1 db).
Proof. unfold serve. apply fold_left_app. Qed.

(** X11: a restart of the service loses nothing.  [init_db] leaves an
    existing table as it is, so a second run on the file the first run
    left continues where the first ended: its table is the one a single
    run would reach with the requests of both, every row of the first run
    is still found under its user id, and a new registration of such an id
    is refused with 409. *)
Theorem restart_keeps_users (L : Libraries) (file : database)
    (rs1 rs2 : list request) :
  let db1 := run_service L file rs1 in
  let db2 := run_service L (Some db1) rs2 in
  db2 = run_service L file (rs1 ++ rs2) /\
  (forall uid row,
      fetchone (select_where_user_id uid db1) = Some row ->
      fetchone (select_where_user_id uid db2) = Some row) /\
  (forall salt reg,
      In reg.(reg_userId) (user_ids db1) ->
      fst (register_user L salt reg db2) = HTTPException 409 "User already exists").
Proof.
  intros db1 db2. unfold db2, db1, run_service. simpl init_db_on.
  split; [now rewrite serve_app|].
  destruct (serve_extends L rs2 (serve L rs1 (init_db_on file))) as [more Hmore].
  split.
  - intros uid row Hrow. rewrite Hmore. now apply fetchone_select_app.
  - intros salt reg Hin. rewrite register_user_conflict; [reflexivity|].
    rewrite Hmore. unfold user_ids in *. rewrite map_app. apply in_or_app. now left.
Qed.

(** ** Concurrent registrations of different users *)













(** ** The range of a distance *)

(** A float that is NaN, a zero, plus infinity or a positive number. *)
Definition not_negative (x : spec_float) : bool :=
  match x with
  | S754_nan => true
  | S754_zero _ => true
  | S754_infinity s => negb s
  | S754_finite s _ _ => negb s
  end.

Lemma binary_round_aux_not_negative prec emax m e l :
  not_negative (binary_round_aux prec emax false m e l) = true.
Proof.
  unfold binary_round_aux.
  destruct (shr_fexp prec emax m e l) as [mrs' e'].
  destruct (shr_fexp prec emax _ e' loc_Exact) as [mrs'' e''].
  destruct (shr_m mrs''); try reflexivity.
  destruct (Z.leb e'' _); reflexivity.
Qed.

(** A square root is never negative. *)
Lemma SFsqrt_not_negative prec emax x : not_negative (SFsqrt prec emax x) = true.
Proof.
  destruct x as [s|[|]| |[|] m e]; try reflexivity. simpl.
  destruct (SFsqrt_core_binary prec emax (Z.pos m) e) as [[mz ez] lz].
  apply binary_round_aux_not_negative.
Qed.

Lemma SFeqb_refl_not_nan x : x <> S754_nan -> SFeqb x x = true.
Proof.
  destruct x as [s|s| |s m e]; intros Hx; try congruence; unfold SFeqb; simpl.
  - reflexivity.
  - now destruct s.
  - rewrite Z.compare_refl, Pos.compare_cont_refl. now destruct s.
Qed.

Lemma is_nan_spec d : PrimFloat.is_nan d = true <-> Prim2SF d = S754_nan.
Proof.
  unfold PrimFloat.is_nan. rewrite FloatAxioms.eqb_spec. split.
  - intros H. destruct (Prim2SF d) as [s|s| |s m e] eqn:E; try reflexivity;
      rewrite SFeqb_refl_not_nan in H by discriminate; discriminate.
  - intros ->. reflexivity.
Qed.

Lemma leb_zero_not_negative d :
  not_negative (Prim2SF d) = true ->
  PrimFloat.is_nan d = true \/ PrimFloat.leb 0 d = true.
Proof.
  intros H. rewrite is_nan_spec, FloatAxioms.leb_spec.
  change (Prim2SF 0) with (S754_zero false).
  destruct (Prim2SF d) as [s|s| |s m e]; simpl in *.
  - now right.
  - right. now destruct s.
  - now left.
  - right. now destruct s.
Qed.

Lemma leb_nan d x : PrimFloat.is_nan d = true -> PrimFloat.leb d x = false.
Proof.
  rewrite is_nan_spec, FloatAxioms.leb_spec. intros ->. reflexivity.
Qed.

Lemma face_distance_not_negative known candidate d :
  face_distance [known] candidate = Some [d] ->
  PrimFloat.is_nan d = true \/ PrimFloat.leb 0 d = true.
Proof.
  rewrite face_distance_one.
  destruct (broadcast_sub known candidate) as [diff|]; simpl; [|discriminate].
  intros [= <-]. apply leb_zero_not_negative.
  rewrite FloatAxioms.sqrt_spec. apply SFsqrt_not_negative.
Qed.

(** X13: the distance in a 200 body of verify-face is never negative: it
    is NaN or at least [0.0]; and a body with [verified: true] carries a
    distance between [0.0] and [0.5], bounds included, never NaN. *)
Theorem verify_face_distance_range (L : Libraries) (data : VerifyFaceRequest)
    (db db' : users) (body : VerifyFaceBody) :
  verify_face L data db = (Ok body, db') ->
  (PrimFloat.is_nan body.(distance) = true \/
   PrimFloat.leb 0 body.(distance) = true) /\
  (body.(verified) = true ->
   PrimFloat.is_nan body.(distance) = false /\
   PrimFloat.leb 0 body.(distance) = true /\
   PrimFloat.leb body.(distance) 0.5 = true).
Proof.
  intros Hok.
  destruct (verify_face_ok_inv L data db db' body Hok)
    as [_ [Hverified [row [stored [candidate [_ [_ [_ Hdist]]]]]]]].
  pose proof (face_distance_not_negative stored candidate _ Hdist) as Hrange.
  split; [exact Hrange|].
  intros Htrue. rewrite Hverified in Htrue.
  destruct (PrimFloat.is_nan (distance body)) eqn:Hnan.
  - rewrite (leb_nan _ _ Hnan) in Htrue. discriminate.
  - destruct Hrange as [Hnan' | Hle]; [discriminate|]. now repeat split.
Qed.

Lemma verify_face_distance_range_witness :
  let body := {| verified := true; distance := 0x1.6a09e667f3bcdp-5%float |} in
  (PrimFloat.is_nan body.(distance) = true \/
   PrimFloat.leb 0 body.(distance) = true) /\
  (body.(verified) = true ->
   PrimFloat.is_nan body.(distance) = false /\
   PrimFloat.leb 0 body.(distance) = true /\
   PrimFloat.leb body.(distance) 0.5 = true).
Proof.
  apply (verify_face_distance_range TestDouble.libs
           {| vf_userId := "alice"; vf_faceImage := "B000" |}
           (snd (register_user TestDouble.libs TestDouble.salt1 TestDouble.alice init_db))
           (snd (register_user TestDouble.libs TestDouble.salt1 TestDouble.alice init_db))).
  vm_compute. reflexivity.
Defined.

(** ** Where users come from *)





